(** * MyYolo: detection / depth fusion and ranking (src/main.py, gomi2.py)

    A shallow embedding of [ObjectDetector.calculate_distance],
    [ObjectDetector.detect_objects], [DataOrganizer.organize_data],
    [DataOrganizer.send_data] and the frame loop, and of the earlier script
    gomi2.py.

    Numbers.  The depth image is a numpy array of unsigned 16-bit samples;
    no arithmetic is done in that type (np.mean accumulates in float64), so a
    sample is an [N].  Distances are floats in the program; they are
    modelled by exact rationals [Q].  For the values that
    [calculate_distance] produces (at most 49 samples below 2^16) the float
    sum is exact and distinct rational means stay distinct after rounding, so
    comparisons and the test against 0 agree with the rational model.

    The boxes of the detector are float32 tensors.  The area test and the
    box centre of [detect_objects] depend on the rounding of that
    arithmetic: module [F32] embeds the loop with the float32 operations of
    [SpecFloat], and the properties of the filter and of the fusion are
    stated on it.  The first embedding of the loop, on exact rationals, is
    kept for the properties that hold whatever the arithmetic of the boxes
    is.

    Containers.  A Python [dict] keeps insertion order and a repeated key
    keeps its first position: it is an association list with [dict_set].
    A numpy 2-D array is a list of rows. *)

From Stdlib Require Import String DecimalString.
From Stdlib Require Import List ZArith NArith QArith Qround Bool Lia Lqa
  Sorted Permutation SpecFloat.
Import ListNotations.

Open Scope Z_scope.

(** ** Python and numpy primitives *)

(** [int(q)]: truncation toward zero. *)
Definition int (q : Q) : Z := Z.quot (Qnum q) (Z.pos (Qden q)).

(** [a < b] on numbers, as a boolean. *)
Definition Qlt_bool (a b : Q) : bool := negb (Qle_bool b a).

(** [l[a:b]] for a sequence: a negative bound counts from the end, and
    both bounds are then clamped to [0, len l]. *)
Definition slice_bound (n i : Z) : Z :=
  if i <? 0 then Z.max (i + n) 0 else Z.min i n.

Definition slice {A : Type} (a b : Z) (l : list A) : list A :=
  let n := Z.of_nat (length l) in
  let start := slice_bound n a in
  let stop := slice_bound n b in
  firstn (Z.to_nat (stop - start)) (skipn (Z.to_nat start) l).

(** [arr[a:b, c:d]] on a 2-D array: rows [a:b], and columns [c:d] of each. *)
Definition slice2 {A : Type} (a b c d : Z) (arr : list (list A))
  : list (list A) :=
  map (slice c d) (slice a b arr).

(** [arr[arr != 0]]: the non-zero elements, in row-major order. *)
Definition nonzero (arr : list (list N)) : list N :=
  filter (fun v => negb (N.eqb v 0)) (concat arr).

(** The sum of a list of samples. *)
Definition total (l : list N) : Z := fold_right (fun v s => Z.of_N v + s) 0 l.

(** [np.mean] of a non-empty 1-D array: the sum over the size. *)
Definition np_mean (l : list N) : Q :=
  inject_Z (total l) / inject_Z (Z.of_nat (length l)).

(** [round(q, 2)]: nearest multiple of 1/100, ties to the even one. *)
Definition rint (q : Q) : Z :=
  let f := Qfloor q in
  match Qcompare (q - inject_Z f) (1 # 2) with
  | Lt => f
  | Gt => f + 1
  | Eq => if Z.even f then f else f + 1
  end.

Definition round2 (q : Q) : Q := Qred (inject_Z (rint (q * 100)) / 100).

(** ** ObjectDetector *)

Definition depth_image := list (list N).

Record ObjectDetector := {
  rect_threshold : Z;
  range_value : Z
}.

(** [ObjectDetector.__init__] (the detector model itself is external). *)
Definition ObjectDetector_init : ObjectDetector :=
  {| rect_threshold := int (1280 / 8 * 720 / 8);
     range_value := 3 |}.

(** Lines 44-47: the region read around pixel column [x], row [y]. *)
Definition region (self : ObjectDetector) (img : depth_image) (x y : Z)
  : list (list N) :=
  slice2 (y - range_value self) (y + range_value self + 1)
         (x - range_value self) (x + range_value self + 1) img.

Definition calculate_distance (self : ObjectDetector) (img : depth_image)
  (x y : Q) : Q :=
  let x := int x in
  let y := int y in
  let distances := nonzero (region self img x y) in
  if negb (Nat.eqb (length distances) 0) then np_mean distances else 0%Q.

(** One row of [result.xyxy[0]]: x_min, y_min, x_max, y_max, confidence,
    class index. *)
Record detection := {
  d0 : Q; d1 : Q; d2 : Q; d3 : Q; d4 : Q; d5 : Q
}.

Definition fused_object : Type := string * Q.

Section DetectObjects.

(** [result.names], the detector's table of class names. *)
Variable names : Z -> string.

Definition too_small (self : ObjectDetector) (d : detection) : bool :=
  Qlt_bool ((d2 d - d0 d) * (d3 d - d1 d)) (inject_Z (rect_threshold self)).

(** Lines 63-67: the body of the loop for a detection that is not skipped. *)
Definition fuse (self : ObjectDetector) (img : depth_image) (d : detection)
  : fused_object :=
  let label := names (int (d5 d)) in
  let x_center := ((d0 d + d2 d) / 2)%Q in
  let y_center := ((d1 d + d3 d) / 2)%Q in
  let distance := calculate_distance self img x_center y_center in
  (label, distance).

(** The [for detection in result.xyxy[0]] loop, threading
    [detected_objects]. *)
Fixpoint detect_loop (self : ObjectDetector) (img : depth_image)
  (xyxy : list detection) (detected_objects : list fused_object)
  : list fused_object :=
  match xyxy with
  | [] => detected_objects
  | d :: rest =>
      if too_small self d
      then detect_loop self img rest detected_objects
      else detect_loop self img rest (detected_objects ++ [fuse self img d])
  end.

Definition detect_objects (self : ObjectDetector) (xyxy : list detection)
  (img : depth_image) : list fused_object :=
  detect_loop self img xyxy [].

End DetectObjects.

(** ** DataOrganizer *)

(** A value of the record: a number of metres or a string. *)
Inductive value :=
| Num (q : Q)
| Str (s : string).

(** A Python [dict] with string keys, in insertion order. *)
Definition dict := list (string * value).

(** [d[k] = v]: an existing key keeps its position and takes the new value;
    a new key is appended. *)
Fixpoint dict_set (k : string) (v : value) (d : dict) : dict :=
  match d with
  | [] => [(k, v)]
  | (k', v') :: t =>
      if String.eqb k k' then (k, v) :: t else (k', v') :: dict_set k v t
  end.

Definition keys (d : dict) : list string := map fst d.

(** [sorted(l, key=lambda x: x[1])]: the builtin is a stable ascending sort;
    it is modelled by the stable insertion sort. *)
Fixpoint insert_by_distance (x : fused_object) (l : list fused_object)
  : list fused_object :=
  match l with
  | [] => [x]
  | y :: t =>
      if Qle_bool (snd x) (snd y) then x :: y :: t
      else y :: insert_by_distance x t
  end.

Fixpoint sorted (l : list fused_object) : list fused_object :=
  match l with
  | [] => []
  | x :: t => insert_by_distance x (sorted t)
  end.

(** [sorted(detected_objects, key=lambda x: x[1])[:3]]: the three entries the
    loop of line 82 visits, in that order. *)
Definition ranked (detected_objects : list fused_object)
  : list fused_object :=
  slice 0 3 (sorted detected_objects).

(** [round(obj[1] / 1000, 2) if obj[1] != 0 else "NA"]. *)
Definition entry_value (distance : Q) : value :=
  if negb (Qeq_bool distance 0) then Num (round2 (distance / 1000))
  else Str "NA".

(** Lines 81-83: the dictionary after the [for] loop. *)
Definition fill (objs : list fused_object) (detected_data : dict) : dict :=
  fold_left (fun d obj => dict_set (fst obj) (entry_value (snd obj)) d)
            objs detected_data.

(** [f"NA_{n}"]. *)
Definition NA_key (n : nat) : string :=
  ("NA_" ++ NilEmpty.string_of_uint (Nat.to_uint n))%string.

(** Lines 86-87: the [while] loop.  It need not terminate, so it runs on
    fuel; [None] is "still looping when the fuel ran out". *)
Fixpoint pad (fuel : nat) (detected_data : dict) : option dict :=
  if Nat.ltb (length detected_data) 3 then
    match fuel with
    | O => None
    | S fuel' =>
        pad fuel' (dict_set (NA_key (length detected_data)) (Str "NA")
                            detected_data)
    end
  else Some detected_data.

Definition organize_data (fuel : nat) (detected_objects : list fused_object)
  : option dict :=
  pad fuel (fill (ranked detected_objects) []).

(** ** Reference definitions for the properties below *)

(** The sample of the image at row [i], column [j], when there is one. *)
Definition sample (img : depth_image) (i j : Z) : option N :=
  if (i <? 0) || (j <? 0) then None
  else match nth_error img (Z.to_nat i) with
       | Some row => nth_error row (Z.to_nat j)
       | None => None
       end.

Definition zrange (lo : Z) (n : nat) : list Z :=
  map (fun k => lo + Z.of_nat k) (seq 0 n).

Definition olist {A : Type} (o : option A) : list A :=
  match o with Some a => [a] | None => [] end.

(** The samples of the square of side [2 * r + 1] centred at column [x],
    row [y] that lie inside the image, in row-major order. *)
Definition neighborhood (r : Z) (img : depth_image) (x y : Z) : list N :=
  flat_map (fun i => flat_map (fun j => olist (sample img i j))
                              (zrange (x - r) (Z.to_nat (2 * r + 1))))
           (zrange (y - r) (Z.to_nat (2 * r + 1))).

(** The detections that the area test of [detect_objects] lets through. *)
Definition DetectionFilter (self : ObjectDetector) (xyxy : list detection)
  : list detection :=
  filter (fun d => negb (too_small self d)) xyxy.

(** The bounding-box area, width x height. *)
Definition area (d : detection) : Q := (d2 d - d0 d) * (d3 d - d1 d).

(** [l1] is [l2] with some elements left out, the others in order. *)
Inductive subseq {A : Type} : list A -> list A -> Prop :=
| subseq_nil : subseq [] []
| subseq_drop x l1 l2 : subseq l1 l2 -> subseq l1 (x :: l2)
| subseq_keep x l1 l2 : subseq l1 l2 -> subseq (x :: l1) (x :: l2).

Definition invalid (o : fused_object) : bool := Qeq_bool (snd o) 0.

Definition valid (o : fused_object) : bool := negb (invalid o).

(** The order of the sort key. *)
Definition by_distance (a b : fused_object) : Prop := (snd a <= snd b)%Q.

Definition same_distance (q : Q) (o : fused_object) : bool :=
  Qeq_bool (snd o) q.

(** What the loop of line 83 writes for one object. *)
Definition entry (o : fused_object) : string * value :=
  (fst o, entry_value (snd o)).

Definition placeholder (i : nat) : string * value := (NA_key i, Str "NA").

(** The placeholders appended to a dictionary of [n] entries. *)
Definition padding (n : nat) : list (string * value) :=
  map placeholder (seq n (3 - n)).

(** None of the placeholder keys still to be written is a key already. *)
Definition fresh_padding (d : dict) : Prop :=
  forall i, (length d <= i < 3)%nat -> ~ In (NA_key i) (keys d).

Definition has_key (k : string) (e : string * value) : bool :=
  String.eqb (fst e) k.

Definition is_zero (v : N) : Prop := v = 0%N.

(** A 10 x 10 image whose samples are all 1000 mm. *)
Definition uniform_image : depth_image := repeat (repeat 1000%N 10) 10.

(** A 120 x 120 image in which columns 99, 100 and 101 read 1000 mm and
    every other sample is a hole: each row of the 7 x 7 neighbourhood of
    (100, 100) is 0, 0, 1000, 1000, 1000, 0, 0. *)
Definition stripe_image : depth_image :=
  repeat (repeat 0%N 99 ++ repeat 1000%N 3 ++ repeat 0%N 18) 120.

(** The fused objects of the ranking scenario: 500 mm, 100 mm and an
    invalid distance. *)
Definition chair_person_NA : list fused_object :=
  [("chair", 500#1); ("person", 100#1); ("NA", 0#1)]%string.

(** A single detection without a depth reading. *)
Definition chair_invalid : list fused_object := [("chair", 0#1)]%string.

(** A single object whose label is a placeholder key. *)
Definition labelled_NA_1 : list fused_object := [("NA_1", 100#1)]%string.

(** Two objects labelled alike, around a third one. *)
Definition cup_dog_cup : list fused_object :=
  [("cup", 100#1); ("dog", 200#1); ("cup", 300#1)]%string.

(** A box of 120 x 120 pixels, whose area is the threshold 14400, and a box
    of 100 x 100 pixels. *)
Definition boundary_box : detection :=
  {| d0 := 0; d1 := 0; d2 := 120#1; d3 := 120#1; d4 := 9#10; d5 := 0 |}.

Definition small_box : detection :=
  {| d0 := 0; d1 := 0; d2 := 100#1; d3 := 100#1; d4 := 9#10; d5 := 0 |}.

Definition person_only (_ : Z) : string := "person"%string.

(** ** DataOrganizer.send_data and the frame loop of [main] *)

Record DataOrganizer := {
  output_dir : string;
  use_serial_communication : bool
}.

(** What the program has written so far: the text printed on the standard
    output, the characters sent to the serial port, and the content of each
    file.  Text is a string of bytes, so [encode("utf-8")] is the identity. *)
Record world := {
  stdout : string;
  serial_port : string;
  files : string -> option string
}.

(** Line feed, which [print] puts after its text. *)
Definition LF : string := String (Ascii.ascii_of_nat 10) EmptyString.

(** [print(s)]. *)
Definition print (s : string) (w : world) : world :=
  {| stdout := (stdout w ++ s ++ LF)%string;
     serial_port := serial_port w;
     files := files w |}.

(** [self.ser.write(s)]. *)
Definition ser_write (s : string) (w : world) : world :=
  {| stdout := stdout w;
     serial_port := (serial_port w ++ s)%string;
     files := files w |}.

(** [with open(path, "a") as file: file.write(s)]: the file is created when
    it does not exist, and the text goes to its end. *)
Definition file_append (path s : string) (w : world) : world :=
  {| stdout := stdout w;
     serial_port := serial_port w;
     files := fun p =>
       if String.eqb p path
       then Some (match files w p with
                  | Some c => (c ++ s)%string
                  | None => s
                  end)
       else files w p |}.

(** Carriage return, the ["\r"] that ends each record. *)
Definition CR : string := String (Ascii.ascii_of_nat 13) EmptyString.

Definition output_json (self : DataOrganizer) : string :=
  (output_dir self ++ "/output.json")%string.

Section SendData.

(** [json.dumps], of the standard library. *)
Variable dumps : dict -> string.

Definition send_data (self : DataOrganizer) (detected_data : dict)
  (w : world) : world :=
  let data_to_send := dumps detected_data in
  let w := print data_to_send w in
  let w := if use_serial_communication self
           then ser_write (data_to_send ++ CR)%string w
           else w in
  file_append (output_json self) (data_to_send ++ CR)%string w.

(** [result.names], the detector's table of class names. *)
Variable names : Z -> string.

(** One frame of the loop of [main]: the detections of the colour image,
    when both images came, with the depth image. *)
Definition frame : Type := option (list detection * depth_image).

(** Lines 143-156, for a run of frames: a missing frame is skipped; for the
    others the fused objects are organised and the record is sent.  [None]
    when [organize_data] is still looping on the fuel given. *)
Fixpoint run_frames (fuel : nat) (object_detector : ObjectDetector)
  (data_organizer : DataOrganizer) (frames : list frame) (w : world)
  : option world :=
  match frames with
  | [] => Some w
  | None :: rest =>
      run_frames fuel object_detector data_organizer rest w
  | Some (xyxy, depth) :: rest =>
      let detected_objects :=
        detect_objects names object_detector xyxy depth in
      match organize_data fuel detected_objects with
      | Some detected_data =>
          run_frames fuel object_detector data_organizer rest
                     (send_data data_organizer detected_data w)
      | None => None
      end
  end.

End SendData.

(** ** gomi2.py, the earlier script *)

Module Gomi2.

(** [arr[i]] for an integer [i]: a negative index counts from the end, and
    an index outside [-len, len) raises IndexError, here [None]. *)
Definition index {A : Type} (i : Z) (l : list A) : option A :=
  let n := Z.of_nat (length l) in
  if (i <? - n) || (n <=? i) then None
  else nth_error l (Z.to_nat (if i <? 0 then i + n else i)).

(** [depth_image[int(y), int(x)]]. *)
Definition calculate_distance (depth_image : depth_image) (x y : Q)
  : option N :=
  match index (int y) depth_image with
  | Some row => index (int x) row
  | None => None
  end.

(** [np.count_nonzero(depth_image == 0) / depth_image.size]; for an image
    without samples the quotient 0 / 0 is not a number, here [None]. *)
Definition zero_percentage (depth_image : depth_image) : option Q :=
  let zeros := length (filter (fun v => N.eqb v 0) (concat depth_image)) in
  let size := length (concat depth_image) in
  if Nat.eqb size 0 then None
  else Some (inject_Z (Z.of_nat zeros) / inject_Z (Z.of_nat size))%Q.

Section Predict.

Variable names : Z -> string.

(** The text of [f"{obj[0]}: {value}m"]. *)
Variable fstr : string -> Q -> string.

(** The loop of lines 47-59; the distance is a sample of the image. *)
Fixpoint detect_loop (depth_image : depth_image) (xyxy : list detection)
  (detected_objects : list fused_object) : option (list fused_object) :=
  match xyxy with
  | [] => Some detected_objects
  | d :: rest =>
      let label := names (int (d5 d)) in
      let x_center := ((d0 d + d2 d) / 2)%Q in
      let y_center := ((d1 d + d3 d) / 2)%Q in
      match calculate_distance depth_image x_center y_center with
      | None => None
      | Some distance =>
          detect_loop depth_image rest
            (detected_objects ++ [(label, inject_Z (Z.of_N distance))])
      end
  end.

(** Lines 62-66. *)
Definition formatted_objects (detected_objects : list fused_object)
  : list string :=
  map (fun obj => fstr (fst obj) (round2 (snd obj / 1000)))
      (filter (fun obj => negb (Qeq_bool (snd obj) 0))
              (slice 0 3 (sorted detected_objects))).

(** [predict], as the numbered lines it prints. *)
Definition predict (xyxy : list detection) (depth_image : depth_image)
  : option (list (nat * string)) :=
  match detect_loop depth_image xyxy [] with
  | None => None
  | Some detected_objects =>
      let formatted := formatted_objects detected_objects in
      Some (combine (map (fun i => (i + 1)%nat) (seq 0 (length formatted)))
                    formatted)
  end.

End Predict.

End Gomi2.

(** ** More reference definitions *)

(** Objects of equal distance are one and the same. *)
Definition distinct_distances (objs : list fused_object) : Prop :=
  forall a b, In a objs -> In b objs -> snd a == snd b -> a = b.

(** All the samples of an image lie between [lo] and [hi]. *)
Definition samples_within (lo hi : N) (img : depth_image) : Prop :=
  Forall (Forall (fun v => (lo <= v <= hi)%N)) img.

(** Every row of the image has [w] samples. *)
Definition width_is (w : nat) (img : depth_image) : Prop :=
  Forall (fun row => length row = w) img.



(** An image of 10 x 10 samples whose left half has no reading. *)
Definition half_image : depth_image :=
  repeat (repeat 0%N 5 ++ repeat 1000%N 5) 10.

(** A box of 2 x 2 pixels centred at ([cx], [cy]). *)
Definition box_at (cx cy : Z) : detection :=
  {| d0 := inject_Z (cx - 1); d1 := inject_Z (cy - 1);
     d2 := inject_Z (cx + 1); d3 := inject_Z (cy + 1);
     d4 := 9#10; d5 := 0 |}.

Definition label_distance (label : string) (value : Q) : string :=
  (label ++ ": ...m")%string.




(** ** [detect_objects] in the arithmetic of the tensors

    [result.xyxy[0]] is a float32 tensor: the differences, the product, the
    sum and the quotient of lines 59-65 are float32 operations, rounded to
    nearest even, with infinities and NaN.  They are the operations of
    [SpecFloat] at precision 24.  A field of a [detection] still holds the
    exact value of a finite float32 number. *)

Module F32.

Definition prec : Z := 24.
Definition emax : Z := 128.

(** The float32 number nearest to a rational (ties to even): the number
    itself when float32 holds it. *)
Definition of_Q (q : Q) : spec_float :=
  match Qnum q with
  | Z0 => S754_zero false
  | Zpos p =>
      let '(mz, ez, lz) :=
        SFdiv_core_binary prec emax (Zpos p) 0 (Zpos (Qden q)) 0 in
      binary_round_aux prec emax false mz ez lz
  | Zneg p =>
      let '(mz, ez, lz) :=
        SFdiv_core_binary prec emax (Zpos p) 0 (Zpos (Qden q)) 0 in
      binary_round_aux prec emax true mz ez lz
  end.

(** A Python [int] operand, cast to float32. *)
Definition of_int (z : Z) : spec_float := of_Q (inject_Z z).

(** The exact value of a finite number; an infinity and NaN have none, and
    [int(x)] raises on them. *)
Definition to_Q (x : spec_float) : option Q :=
  match x with
  | S754_zero _ => Some 0%Q
  | S754_finite s m e =>
      Some (inject_Z (cond_Zopp s (Zpos m)) * Qpower 2 e)%Q
  | S754_infinity _ => None
  | S754_nan => None
  end.

(** [detection[2] - detection[0]] and [detection[3] - detection[1]]. *)
Definition width (d : detection) : spec_float :=
  SFsub prec emax (of_Q (d2 d)) (of_Q (d0 d)).

Definition height (d : detection) : spec_float :=
  SFsub prec emax (of_Q (d3 d)) (of_Q (d1 d)).

Definition area (d : detection) : spec_float :=
  SFmul prec emax (width d) (height d).

Definition threshold (self : ObjectDetector) : spec_float :=
  of_int (rect_threshold self).

(** Lines 59-61. *)
Definition too_small (self : ObjectDetector) (d : detection) : bool :=
  SFltb (area d) (threshold self).

(** Lines 64-65. *)
Definition x_center (d : detection) : spec_float :=
  SFdiv prec emax (SFadd prec emax (of_Q (d0 d)) (of_Q (d2 d))) (of_int 2).

Definition y_center (d : detection) : spec_float :=
  SFdiv prec emax (SFadd prec emax (of_Q (d1 d)) (of_Q (d3 d))) (of_int 2).

Section Detect.

Variable names : Z -> string.

(** Lines 63-67; [None] when [int(x)] or [int(y)] raises in
    [calculate_distance]. *)
Definition fuse (self : ObjectDetector) (img : depth_image) (d : detection)
  : option fused_object :=
  let label := names (int (d5 d)) in
  match to_Q (x_center d), to_Q (y_center d) with
  | Some x, Some y => Some (label, calculate_distance self img x y)
  | _, _ => None
  end.

(** The loop of lines 58-67; an exception ends it. *)
Fixpoint detect_loop (self : ObjectDetector) (img : depth_image)
  (xyxy : list detection) (detected_objects : list fused_object)
  : option (list fused_object) :=
  match xyxy with
  | [] => Some detected_objects
  | d :: rest =>
      if too_small self d
      then detect_loop self img rest detected_objects
      else match fuse self img d with
           | Some obj => detect_loop self img rest (detected_objects ++ [obj])
           | None => None
           end
  end.

Definition detect_objects (self : ObjectDetector) (xyxy : list detection)
  (img : depth_image) : option (list fused_object) :=
  detect_loop self img xyxy [].

End Detect.

(** The detections that the area test lets through. *)
Definition DetectionFilter (self : ObjectDetector) (xyxy : list detection)
  : list detection :=
  filter (fun d => negb (too_small self d)) xyxy.

End F32.

(** The labels of a list in the order of their first occurrence, those
    already [seen] left out. *)
Fixpoint first_occurrences (seen ls : list string) : list string :=
  match ls with
  | [] => []
  | l :: t =>
      if existsb (String.eqb l) seen then first_occurrences seen t
      else l :: first_occurrences (l :: seen) t
  end.

(** The numbers of a record, in the order of its slots. *)
Definition slot_numbers (rec : dict) : list Q :=
  flat_map (fun e => match snd e with Num q => [q] | Str _ => [] end) rec.

Definition NA_entry (l : string) : string * value := (l, Str "NA").

(** A box of width 2^128 and height 0: the float32 width overflows. *)
Definition overflowing_width_box : detection :=
  {| d0 := inject_Z (- 2 ^ 127); d1 := 0; d2 := inject_Z (2 ^ 127); d3 := 0;
     d4 := 9#10; d5 := 0 |}.

(** A box of width 2^104 and height 14400 whose float32 centre overflows. *)
Definition overflowing_centre_box : detection :=
  {| d0 := inject_Z (2 ^ 127); d1 := 0;
     d2 := inject_Z (2 ^ 127 + 2 ^ 104); d3 := 14400#1;
     d4 := 9#10; d5 := 0 |}.

(** A box of height 120 - 2^-20, which float32 rounds to 120. *)
Definition rounded_height_box : detection :=
  {| d0 := 0; d1 := 1 # (2 ^ 20); d2 := 120#1; d3 := 120#1;
     d4 := 9#10; d5 := 0 |}.

(** A box from 0.3 to 13.7 across: the float32 sum of the two is 14. *)
Definition rounded_centre_box : detection :=
  {| d0 := 3#10; d1 := 0; d2 := 137#10; d3 := 10#1; d4 := 9#10; d5 := 0 |}.

(** An image of 10 x 10 samples, column [j] reading [100 * j] mm. *)
Definition gradient_image : depth_image :=
  repeat [0; 100; 200; 300; 400; 500; 600; 700; 800; 900]%N 10.

Definition one_pixel : ObjectDetector :=
  {| rect_threshold := 100; range_value := 0 |}.

(** ** Examples *)

Example rect_threshold_value : rect_threshold ObjectDetector_init = 14400.
Proof. reflexivity. Qed.

Example organize_three :
  organize_data 3 [("chair", 500#1); ("person", 100#1); ("NA", 0#1)]%string
  = Some [("NA", Str "NA"); ("person", Num (1#10)); ("chair", Num (1#2))]%string.
Proof. vm_compute. reflexivity. Qed.

Example organize_empty :
  organize_data 3 []
  = Some [("NA_0", Str "NA"); ("NA_1", Str "NA"); ("NA_2", Str "NA")]%string.
Proof. vm_compute. reflexivity. Qed.

(** ** Slices and indices *)

Lemma skipn_nth_error {A : Type} (l : list A) (s : nat) :
  skipn s l = match nth_error l s with
              | Some v => v :: skipn (S s) l
              | None => []
              end.
Proof.
  revert s; induction l as [|a l IH]; intros [|s]; simpl; auto.
Qed.

Lemma firstn_skipn_seq {A : Type} (l : list A) (n s : nat) :
  firstn n (skipn s l) = flat_map (fun k => olist (nth_error l k)) (seq s n).
Proof.
  revert s; induction n as [|n IH]; intros s; [reflexivity|].
  rewrite skipn_nth_error. cbn [seq flat_map].
  destruct (nth_error l s) as [v|] eqn:E; cbn [olist app].
  - rewrite firstn_cons. f_equal. apply IH.
  - rewrite <- IH. apply nth_error_None in E.
    rewrite skipn_all2 by lia. now destruct n.
Qed.

Lemma slice_from_0 {A : Type} (n : nat) (l : list A) :
  slice 0 (Z.of_nat n) l = firstn n l.
Proof.
  unfold slice, slice_bound.
  replace (0 <? 0) with false by reflexivity.
  replace (Z.of_nat n <? 0) with false by (symmetry; apply Z.ltb_ge; lia).
  rewrite (Z.min_l 0) by lia. rewrite Z.sub_0_r. simpl skipn.
  destruct (Z.min_spec (Z.of_nat n) (Z.of_nat (length l))) as [[H ->]|[H ->]].
  - now rewrite Nat2Z.id.
  - rewrite Nat2Z.id, firstn_all, firstn_all2; auto; lia.
Qed.

(** A slice whose start is not negative reads the positions
    [a, a+1, ..., a+n-1] that exist. *)
Lemma slice_nonneg {A : Type} (a : Z) (n : nat) (l : list A) :
  0 <= a ->
  slice a (a + Z.of_nat n) l
  = flat_map (fun k => olist (nth_error l k)) (seq (Z.to_nat a) n).
Proof.
  intros Ha. rewrite <- firstn_skipn_seq.
  unfold slice, slice_bound.
  replace (a <? 0) with false by (symmetry; apply Z.ltb_ge; lia).
  replace (a + Z.of_nat n <? 0) with false by (symmetry; apply Z.ltb_ge; lia).
  set (len := Z.of_nat (length l)).
  destruct (Z.le_gt_cases len a) as [Hge|Hlt].
  - rewrite (Z.min_r a) by lia.
    rewrite !skipn_all2 by lia. now rewrite !firstn_nil.
  - rewrite (Z.min_l a) by lia.
    destruct (Z.le_gt_cases (a + Z.of_nat n) len) as [H1|H1].
    + rewrite Z.min_l by lia. f_equal. lia.
    + rewrite Z.min_r by lia.
      rewrite !firstn_all2; auto; rewrite length_skipn; lia.
Qed.

Lemma flat_map_flat_map {A B C : Type} (f : B -> list C) (g : A -> list B)
  (l : list A) :
  flat_map f (flat_map g l) = flat_map (fun x => flat_map f (g x)) l.
Proof.
  induction l as [|x l IH]; simpl; [reflexivity|].
  now rewrite flat_map_app, IH.
Qed.

Lemma flat_map_nil {A B : Type} (l : list A) :
  flat_map (fun _ : A => @nil B) l = [].
Proof. induction l; simpl; auto. Qed.

Lemma zrange_seq (lo : Z) (n : nat) :
  0 <= lo -> zrange lo n = map Z.of_nat (seq (Z.to_nat lo) n).
Proof.
  intros H. unfold zrange.
  replace (Z.to_nat lo) with (Z.to_nat lo + 0)%nat at 1 by lia.
  generalize 0%nat as b.
  induction n as [|n IH]; intros b; simpl; [reflexivity|].
  f_equal; [lia|].
  rewrite IH. f_equal. f_equal. lia.
Qed.

Lemma flat_map_map {A B C : Type} (f : B -> list C) (g : A -> B)
  (l : list A) :
  flat_map f (map g l) = flat_map (fun x => f (g x)) l.
Proof. induction l as [|x l IH]; simpl; [reflexivity|]. now rewrite IH. Qed.

Lemma sample_of_nat (img : depth_image) (i j : nat) :
  sample img (Z.of_nat i) (Z.of_nat j)
  = match nth_error img i with
    | Some row => nth_error row j
    | None => None
    end.
Proof.
  unfold sample.
  replace (Z.of_nat i <? 0) with false by (symmetry; apply Z.ltb_ge; lia).
  replace (Z.of_nat j <? 0) with false by (symmetry; apply Z.ltb_ge; lia).
  now rewrite !Nat2Z.id.
Qed.

(** Away from the top and left edges, the region that
    [calculate_distance] reads is the square clipped to the image (the
    right and bottom edges included). *)
Lemma region_clipped (self : ObjectDetector) (img : depth_image) (x y : Z) :
  0 <= range_value self -> range_value self <= x -> range_value self <= y ->
  concat (region self img x y) = neighborhood (range_value self) img x y.
Proof.
  intros Hr Hx Hy. unfold region, slice2, neighborhood.
  set (r := range_value self) in *.
  set (n := Z.to_nat (2 * r + 1)).
  replace (y + r + 1) with ((y - r) + Z.of_nat n) by lia.
  replace (x + r + 1) with ((x - r) + Z.of_nat n) by lia.
  rewrite <- flat_map_concat_map.
  rewrite (slice_nonneg (y - r)) by lia.
  rewrite flat_map_flat_map.
  rewrite (zrange_seq (y - r)) by lia.
  rewrite flat_map_map.
  apply flat_map_ext. intros i.
  rewrite (zrange_seq (x - r)) by lia.
  rewrite flat_map_map.
  destruct (nth_error img i) as [row|] eqn:E; cbn [olist flat_map].
  - rewrite app_nil_r, slice_nonneg by lia.
    apply flat_map_ext. intros j. now rewrite sample_of_nat, E.
  - symmetry. erewrite flat_map_ext; [apply flat_map_nil|].
    intros j. now rewrite sample_of_nat, E.
Qed.

(** ** Means *)

Lemma total_const (c : N) (l : list N) :
  Forall (fun v => v = c) l -> total l = Z.of_N c * Z.of_nat (length l).
Proof.
  induction 1 as [|v l Hv _ IH]; [simpl; lia|].
  subst v. cbn [total fold_right length] in *. fold (total l). lia.
Qed.

Lemma total_nonzero (l : list N) :
  Forall (fun v => v <> 0%N) l -> Z.of_nat (length l) <= total l.
Proof.
  induction 1 as [|v l Hv _ IH]; [simpl; lia|].
  cbn [total fold_right length] in *. fold (total l). lia.
Qed.

Lemma np_mean_const (c : N) (l : list N) :
  l <> [] -> Forall (fun v => v = c) l -> np_mean l == inject_Z (Z.of_N c).
Proof.
  intros Hne Hc. unfold np_mean.
  rewrite (total_const c l Hc), inject_Z_mult.
  apply Qdiv_mult_l. destruct l; [congruence|].
  unfold Qeq; simpl. lia.
Qed.

Lemma np_mean_pos (l : list N) :
  l <> [] -> Forall (fun v => v <> 0%N) l -> (0 < np_mean l)%Q.
Proof.
  intros Hne Hnz. unfold np_mean.
  pose proof (total_nonzero l Hnz) as Ht.
  assert (Hl : 0 < Z.of_nat (length l)) by (destruct l; [congruence|simpl; lia]).
  apply Qlt_shift_div_l; unfold Qlt; simpl; lia.
Qed.

Lemma nonzero_Forall (arr : list (list N)) :
  Forall (fun v => v <> 0%N) (nonzero arr).
Proof.
  unfold nonzero. apply Forall_forall. intros v Hv.
  apply filter_In in Hv. destruct Hv as [_ Hv].
  apply negb_true_iff, N.eqb_neq in Hv. exact Hv.
Qed.

Lemma nonzero_nil_iff (arr : list (list N)) :
  nonzero arr = [] <-> Forall (fun v => v = 0%N) (concat arr).
Proof.
  unfold nonzero. induction (concat arr) as [|v l IH]; simpl.
  - split; auto.
  - destruct (N.eqb_spec v 0); simpl.
    + rewrite IH. split; intros H; [constructor; auto|now inversion H].
    + split; [discriminate|]. intros H; inversion H; contradiction.
Qed.

Lemma calculate_distance_eq (self : ObjectDetector) (img : depth_image)
  (x y : Q) :
  calculate_distance self img x y
  = match nonzero (region self img (int x) (int y)) with
    | [] => 0%Q
    | v :: l => np_mean (v :: l)
    end.
Proof.
  unfold calculate_distance.
  now destruct (nonzero (region self img (int x) (int y))).
Qed.

(** ** DepthSampler *)

Lemma calculate_distance_const (self : ObjectDetector) (img : depth_image)
  (x y : Q) (c : N) :
  c <> 0%N -> In c (concat (region self img (int x) (int y))) ->
  Forall (fun v => v = 0%N \/ v = c) (concat (region self img (int x) (int y))) ->
  calculate_distance self img x y == inject_Z (Z.of_N c).
Proof.
  intros Hc Hin Hall. rewrite calculate_distance_eq. unfold nonzero.
  set (nb := concat (region self img (int x) (int y))) in *.
  assert (Hin' : In c (filter (fun v => negb (N.eqb v 0)) nb)).
  { apply filter_In. split; [exact Hin|].
    now apply negb_true_iff, N.eqb_neq. }
  assert (Hall' : Forall (fun v => v = c)
                    (filter (fun v => negb (N.eqb v 0)) nb)).
  { apply Forall_forall. intros v Hv. apply filter_In in Hv.
    destruct Hv as [Hv1 Hv2]. rewrite Forall_forall in Hall.
    apply negb_true_iff, N.eqb_neq in Hv2.
    destruct (Hall v Hv1); [contradiction|assumption]. }
  destruct (filter _ nb) as [|v l] eqn:E; [contradiction|].
  apply np_mean_const; [discriminate|exact Hall'].
Qed.

(** Over the region that it reads, [calculate_distance] returns 0
    (invalid) exactly when every sample of the neighbourhood it gathers is
    the zero sentinel, and otherwise the arithmetic mean of the non-zero
    samples; when the non-zero samples all equal [c] the result is [c]; for
    a centre at least [range_value] away from the top and left edges that
    neighbourhood is the square of side [2 * range_value + 1] around the
    centre, clipped to the image; in particular, when the non-zero samples
    of the 7 x 7 square centred at (100, 100) are all 1000, the distance
    sampled at (100, 100) with radius 3 is 1000 mm. *)
Theorem calculate_distance_mean_of_nonzero
  (self : ObjectDetector) (img : depth_image) (x y : Q) :
  let nb := concat (region self img (int x) (int y)) in
  (calculate_distance self img x y == 0 <-> Forall is_zero nb) /\
  (~ Forall is_zero nb ->
   calculate_distance self img x y
   == np_mean (filter (fun v => negb (N.eqb v 0)) nb)) /\
  (forall c : N, c <> 0%N -> In c nb ->
   Forall (fun v => v = 0%N \/ v = c) nb ->
   calculate_distance self img x y == inject_Z (Z.of_N c)) /\
  (0 <= range_value self -> range_value self <= int x ->
   range_value self <= int y ->
   nb = neighborhood (range_value self) img (int x) (int y)) /\
  (In 1000%N (neighborhood 3 img 100 100) ->
   Forall (fun v => v = 0%N \/ v = 1000%N) (neighborhood 3 img 100 100) ->
   calculate_distance ObjectDetector_init img (100#1) (100#1) == 1000#1).
Proof.
  intros nb. rewrite calculate_distance_eq.
  pose proof (nonzero_Forall (region self img (int x) (int y))) as Hnz.
  pose proof (nonzero_nil_iff (region self img (int x) (int y))) as Hnil.
  fold nb in Hnil. unfold is_zero.
  assert (Hdef : nonzero (region self img (int x) (int y))
                 = filter (fun v => negb (N.eqb v 0)) nb) by reflexivity.
  repeat split.
  - destruct (nonzero _) as [|v l] eqn:E; [intros _; now apply Hnil|].
    intros H0. exfalso.
    assert (Hp : (0 < np_mean (v :: l))%Q) by (apply np_mean_pos; [discriminate|exact Hnz]).
    rewrite H0 in Hp. now apply Qlt_irrefl in Hp.
  - intros Hz. apply Hnil in Hz. now rewrite Hz.
  - intros Hz. rewrite <- Hdef.
    destruct (nonzero _) as [|v l] eqn:E; [|reflexivity].
    exfalso. apply Hz. now apply Hnil.
  - intros c Hc Hin Hall. rewrite <- calculate_distance_eq.
    now apply calculate_distance_const.
  - intros Hr Hx Hy. now apply region_clipped.
  - intros Hin Hall.
    assert (Hsq : concat (region ObjectDetector_init img (int (100#1)) (int (100#1)))
                  = neighborhood 3 img 100 100).
    { apply (region_clipped ObjectDetector_init img 100 100);
        vm_compute; discriminate. }
    apply (calculate_distance_const ObjectDetector_init img (100#1) (100#1)
             1000%N); [discriminate| |]; now rewrite Hsq.
Qed.

(** The end-to-end scenario: on [stripe_image] the 7 x 7
    neighbourhood of (100, 100) holds 21 samples of 1000 mm among holes, and
    the sampled distance is 1000 mm. *)
Lemma calculate_distance_at_100_100 :
  neighborhood 3 stripe_image 100 100
  = concat (repeat [0; 0; 1000; 1000; 1000; 0; 0]%N 7) /\
  calculate_distance ObjectDetector_init stripe_image (100#1) (100#1) == 1000#1.
Proof.
  destruct (calculate_distance_mean_of_nonzero
              ObjectDetector_init stripe_image (100#1) (100#1))
    as (_ & _ & _ & _ & H).
  assert (Hnb : neighborhood 3 stripe_image 100 100
                = concat (repeat [0; 0; 1000; 1000; 1000; 0; 0]%N 7))
    by (vm_compute; reflexivity).
  split; [exact Hnb|]. apply H; rewrite Hnb; simpl.
  - auto.
  - repeat (constructor; [(left; reflexivity) || (right; reflexivity)|]).
    constructor.
Defined.

(** C3 at the left edge: the centre (1, 5) of [uniform_image] is within
    radius 3 of the left edge.  The column slice starts at -2, which numpy
    counts from the right end, so the region is empty and the distance is
    the invalid 0, although the in-bounds part of the square holds 35
    samples of 1000 mm.  At the right edge (8, 5) the slice is clipped and
    the mean of the in-bounds samples is returned. *)
Theorem calculate_distance_left_edge_empty :
  region ObjectDetector_init uniform_image 1 5 = repeat [] 7 /\
  calculate_distance ObjectDetector_init uniform_image (1#1) (5#1) = 0%Q /\
  neighborhood 3 uniform_image 1 5 = repeat 1000%N 35 /\
  region ObjectDetector_init uniform_image 5 1 = [] /\
  calculate_distance ObjectDetector_init uniform_image (5#1) (1#1) = 0%Q /\
  concat (region ObjectDetector_init uniform_image 8 5)
  = neighborhood 3 uniform_image 8 5 /\
  calculate_distance ObjectDetector_init uniform_image (8#1) (5#1) == 1000#1.
Proof. vm_compute. repeat split; discriminate. Qed.

(** ** DetectionFilter and FusionEngine *)

Lemma too_small_iff (self : ObjectDetector) (d : detection) :
  too_small self d = true <-> (area d < inject_Z (rect_threshold self))%Q.
Proof.
  unfold too_small, Qlt_bool. fold (area d). rewrite negb_true_iff.
  destruct (Qle_bool (inject_Z (rect_threshold self)) (area d)) eqn:E.
  - apply Qle_bool_iff in E. split; [discriminate|].
    intros H. now apply Qle_not_lt in E.
  - split; [intros _|reflexivity]. apply Qnot_le_lt. intros H.
    apply Qle_bool_iff in H. congruence.
Qed.

Lemma filter_subseq {A : Type} (f : A -> bool) (l : list A) :
  subseq (filter f l) l.
Proof.
  induction l as [|x l IH]; simpl; [constructor|].
  destruct (f x); now constructor.
Qed.

Section Fusion.

Variable names : Z -> string.
Variable self : ObjectDetector.
Variable img : depth_image.



End Fusion.

(** ** The stable sort *)

Lemma Qle_bool_false (a b : Q) : Qle_bool a b = false -> (b < a)%Q.
Proof.
  intros E. apply Qnot_le_lt. intros H. apply Qle_bool_iff in H. congruence.
Qed.

Lemma insert_by_distance_perm (x : fused_object) (l : list fused_object) :
  Permutation (insert_by_distance x l) (x :: l).
Proof.
  induction l as [|y t IH]; simpl; [reflexivity|].
  destruct (Qle_bool (snd x) (snd y)); [reflexivity|].
  rewrite IH. apply perm_swap.
Qed.

Lemma sorted_perm (l : list fused_object) : Permutation (sorted l) l.
Proof.
  induction l as [|x t IH]; simpl; [reflexivity|].
  rewrite insert_by_distance_perm. now constructor.
Qed.

Lemma insert_by_distance_sorted (x : fused_object) (l : list fused_object) :
  StronglySorted by_distance l ->
  StronglySorted by_distance (insert_by_distance x l).
Proof.
  induction 1 as [|y t Ht IH Hy]; simpl.
  - repeat constructor.
  - destruct (Qle_bool (snd x) (snd y)) eqn:E.
    + apply Qle_bool_iff in E. constructor; [now constructor|].
      constructor; [exact E|].
      eapply Forall_impl; [|exact Hy]. intros z Hz.
      unfold by_distance in *. eapply Qle_trans; eassumption.
    + apply Qle_bool_false in E. constructor; [exact IH|].
      rewrite (insert_by_distance_perm x t).
      constructor; [|exact Hy]. now apply Qlt_le_weak.
Qed.

Lemma sorted_sorted (l : list fused_object) :
  StronglySorted by_distance (sorted l).
Proof.
  induction l as [|x t IH]; simpl; [constructor|].
  now apply insert_by_distance_sorted.
Qed.

(** Inserting [x] in front of a sorted tail keeps [x] ahead of every entry
    of the same distance: the sort is stable. *)
Lemma insert_by_distance_filter (q : Q) (x : fused_object)
  (l : list fused_object) :
  filter (same_distance q) (insert_by_distance x l)
  = filter (same_distance q) (x :: l).
Proof.
  induction l as [|y t IH]; [reflexivity|].
  cbn [insert_by_distance].
  destruct (Qle_bool (snd x) (snd y)) eqn:E; [reflexivity|].
  apply Qle_bool_false in E.
  cbn [filter] in *. rewrite IH.
  destruct (same_distance q x) eqn:Ex; [|reflexivity].
  destruct (same_distance q y) eqn:Ey; [|reflexivity].
  unfold same_distance in *. apply Qeq_bool_iff in Ex, Ey.
  rewrite Ex, Ey in E. now apply Qlt_irrefl in E.
Qed.

Lemma sorted_stable (q : Q) (l : list fused_object) :
  filter (same_distance q) (sorted l) = filter (same_distance q) l.
Proof.
  induction l as [|x t IH]; [reflexivity|].
  cbn [sorted]. rewrite insert_by_distance_filter.
  cbn [filter]. now rewrite IH.
Qed.

Lemma ranked_firstn (l : list fused_object) :
  ranked l = firstn 3 (sorted l).
Proof. unfold ranked. apply (slice_from_0 3). Qed.

Lemma StronglySorted_firstn {A : Type} (R : A -> A -> Prop) (n : nat)
  (l : list A) :
  StronglySorted R l -> StronglySorted R (firstn n l).
Proof.
  intros H; revert n; induction H as [|x l Hl IH Hx]; intros [|n]; simpl;
    try constructor; auto.
  apply Forall_forall. intros y Hy. rewrite Forall_forall in Hx.
  apply Hx. rewrite <- (firstn_skipn n l). apply in_or_app. now left.
Qed.

Lemma filter_firstn_prefix {A : Type} (f : A -> bool) (n : nat) (l : list A) :
  exists rest, filter f l = filter f (firstn n l) ++ rest.
Proof.
  exists (filter f (skipn n l)).
  now rewrite <- filter_app, firstn_skipn.
Qed.

(** With distances that are not negative, the invalid objects (distance 0)
    come first, in input order, before the valid ones in ascending order. *)
Lemma insert_after_invalid (x : fused_object) (zs l : list fused_object) :
  valid x = true -> (0 <= snd x)%Q -> Forall (fun o => invalid o = true) zs ->
  insert_by_distance x (zs ++ l) = zs ++ insert_by_distance x l.
Proof.
  intros Hx H0 Hz. induction Hz as [|z zs Hzv _ IH]; [reflexivity|].
  cbn [app insert_by_distance].
  destruct (Qle_bool (snd x) (snd z)) eqn:E; [|now rewrite IH].
  exfalso. apply Qle_bool_iff in E.
  unfold valid, invalid in *. apply Qeq_bool_iff in Hzv.
  apply negb_true_iff in Hx.
  assert (Hx0 : snd x == 0).
  { apply Qle_antisym; [now rewrite <- Hzv|exact H0]. }
  apply Qeq_bool_iff in Hx0. congruence.
Qed.

Lemma sorted_invalid_first (l : list fused_object) :
  Forall (fun o => (0 <= snd o)%Q) l ->
  sorted l = filter invalid l ++ sorted (filter valid l).
Proof.
  induction 1 as [|x t Hx Ht IH]; [reflexivity|].
  cbn [sorted filter]. unfold valid at 1.
  destruct (invalid x) eqn:Ex; cbn [negb].
  - rewrite IH. rewrite <- app_comm_cons.
    destruct (filter invalid t ++ sorted (filter valid t)) as [|y u] eqn:Eu;
      [reflexivity|].
    cbn [insert_by_distance].
    assert (Hy : In y t).
    { apply (Permutation_in y (sorted_perm t)). rewrite IH. now left. }
    rewrite Forall_forall in Ht. specialize (Ht y Hy).
    unfold invalid in Ex. apply Qeq_bool_iff in Ex.
    replace (Qle_bool (snd x) (snd y)) with true; [reflexivity|].
    symmetry. apply Qle_bool_iff. now rewrite Ex.
  - rewrite IH. cbn [sorted]. apply insert_after_invalid; auto.
    + unfold valid. now rewrite Ex.
    + apply Forall_forall. intros o Ho. now apply filter_In in Ho.
Qed.

(** ** Dictionaries *)

Lemma dict_set_fresh (k : string) (v : value) (d : dict) :
  ~ In k (keys d) -> dict_set k v d = d ++ [(k, v)].
Proof.
  induction d as [|[k' v'] t IH]; simpl; intros H; [reflexivity|].
  destruct (String.eqb_spec k k') as [->|Hne].
  - exfalso. apply H. now left.
  - rewrite IH; auto.
Qed.

Lemma dict_set_keys_in (k : string) (v : value) (d : dict) :
  In k (keys d) -> keys (dict_set k v d) = keys d.
Proof.
  induction d as [|[k' v'] t IH]; simpl; intros H; [contradiction|].
  destruct (String.eqb_spec k k') as [->|Hne]; simpl; [reflexivity|].
  f_equal. apply IH. destruct H; [congruence|assumption].
Qed.

Lemma dict_set_keys (k : string) (v : value) (d : dict) :
  keys (dict_set k v d)
  = if in_dec string_dec k (keys d) then keys d else keys d ++ [k].
Proof.
  destruct (in_dec string_dec k (keys d)) as [H|H].
  - now apply dict_set_keys_in.
  - rewrite dict_set_fresh by exact H. unfold keys. now rewrite map_app.
Qed.

Lemma dict_set_length (k : string) (v : value) (d : dict) :
  length (dict_set k v d)
  = if in_dec string_dec k (keys d) then length d else S (length d).
Proof.
  pose proof (dict_set_keys k v d) as H.
  apply (f_equal (@length string)) in H. unfold keys in H at 1.
  rewrite length_map in H. rewrite H.
  destruct (in_dec string_dec k (keys d)); unfold keys.
  - apply length_map.
  - rewrite length_app, length_map. simpl. lia.
Qed.

Lemma dict_set_NoDup (k : string) (v : value) (d : dict) :
  NoDup (keys d) -> NoDup (keys (dict_set k v d)).
Proof.
  intros H. rewrite dict_set_keys.
  destruct (in_dec string_dec k (keys d)) as [Hk|Hk]; [exact H|].
  apply NoDup_app; [exact H|repeat constructor; auto|].
  intros a Ha [<-|[]]. contradiction.
Qed.

Lemma dict_set_In_same (k : string) (v : value) (d : dict) :
  In (k, v) (dict_set k v d).
Proof.
  induction d as [|[k' v'] t IH]; simpl; [now left|].
  destruct (String.eqb k k'); [now left|now right].
Qed.

Lemma dict_set_In_other (k k' : string) (v v' : value) (d : dict) :
  In (k', v') d -> k' <> k -> In (k', v') (dict_set k v d).
Proof.
  induction d as [|[k0 v0] t IH]; simpl; intros H Hne; [contradiction|].
  destruct (String.eqb_spec k k0) as [->|Hk].
  - destruct H as [H|H]; [congruence|now right].
  - destruct H as [H|H]; [now left|right; auto].
Qed.

Lemma NoDup_keys_filter (k : string) (v : value) (d : dict) :
  NoDup (keys d) -> In (k, v) d -> filter (has_key k) d = [(k, v)].
Proof.
  assert (Hnone : forall t : dict, ~ In k (keys t) -> filter (has_key k) t = []).
  { induction t as [|[k' v'] t IH]; simpl; intros H; [reflexivity|].
    unfold has_key at 1. simpl.
    destruct (String.eqb_spec k' k) as [->|Hne]; [exfalso; auto|auto]. }
  induction d as [|[k' v'] t IH]; simpl; intros Hnd Hin; [contradiction|].
  inversion Hnd as [|? ? Hk' Ht]; subst.
  unfold has_key at 1. simpl.
  destruct Hin as [Heq|Hin].
  - inversion Heq; subst. rewrite String.eqb_refl. f_equal. now apply Hnone.
  - destruct (String.eqb_spec k' k) as [->|Hne]; [|now apply IH].
    exfalso. apply Hk'. change k with (fst (k, v)). now apply in_map.
Qed.

(** ** The [for] loop of [organize_data] *)

Lemma fill_app (a b : list fused_object) (d : dict) :
  fill (a ++ b) d = fill b (fill a d).
Proof. unfold fill. apply fold_left_app. Qed.

Lemma fill_keys (objs : list fused_object) (d : dict) (k : string) :
  In k (keys (fill objs d)) <-> In k (keys d) \/ In k (map fst objs).
Proof.
  revert d; induction objs as [|o objs IH]; intros d; simpl.
  - tauto.
  - rewrite IH, dict_set_keys.
    destruct (in_dec string_dec (fst o) (keys d)) as [H|H].
    + split; [tauto|]. intros [H1|[<-|H1]]; auto.
    + rewrite in_app_iff. simpl. tauto.
Qed.

Lemma fill_NoDup (objs : list fused_object) (d : dict) :
  NoDup (keys d) -> NoDup (keys (fill objs d)).
Proof.
  revert d; induction objs as [|o objs IH]; intros d H; simpl; [exact H|].
  now apply IH, dict_set_NoDup.
Qed.

Lemma fill_length (objs : list fused_object) (d : dict) :
  (length d <= length (fill objs d) <= length d + length objs)%nat.
Proof.
  revert d; induction objs as [|o objs IH]; intros d; simpl; [lia|].
  specialize (IH (dict_set (fst o) (entry_value (snd o)) d)).
  rewrite dict_set_length in IH.
  destruct (in_dec string_dec (fst o) (keys d)); lia.
Qed.

Lemma fill_nonempty (objs : list fused_object) :
  objs <> [] -> (1 <= length (fill objs []))%nat.
Proof.
  destruct objs as [|o objs]; [congruence|]. intros _. simpl.
  pose proof (fill_length objs [(fst o, entry_value (snd o))]). simpl in *. lia.
Qed.

Lemma fill_distinct (objs : list fused_object) (d : dict) :
  NoDup (keys d ++ map fst objs) -> fill objs d = d ++ map entry objs.
Proof.
  revert d; induction objs as [|o objs IH]; intros d H; simpl.
  - now rewrite app_nil_r.
  - apply NoDup_remove in H as Hr. destruct Hr as [_ Ho].
    rewrite dict_set_fresh by (intros Hk; apply Ho, in_or_app; now left).
    fold (entry o). rewrite IH.
    + now rewrite <- app_assoc.
    + unfold keys in *. rewrite map_app. simpl.
      now rewrite <- app_assoc.
Qed.

Lemma fill_In_untouched (objs : list fused_object) (d : dict)
  (k : string) (v : value) :
  In (k, v) d -> ~ In k (map fst objs) -> In (k, v) (fill objs d).
Proof.
  revert d; induction objs as [|o objs IH]; intros d H Hn; simpl; [exact H|].
  simpl in Hn. apply IH; [|tauto].
  apply dict_set_In_other; [exact H|]. intros E. apply Hn. now left.
Qed.

(** The value under a label is the one written for its last occurrence. *)
Lemma fill_last (pre post : list fused_object) (l : string) (q : Q)
  (d : dict) :
  ~ In l (map fst post) ->
  In (l, entry_value q) (fill (pre ++ (l, q) :: post) d).
Proof.
  intros Hn. rewrite fill_app. simpl.
  apply fill_In_untouched; [apply dict_set_In_same|exact Hn].
Qed.

Lemma fill_invalid_values (objs : list fused_object) (d : dict) :
  Forall (fun o => invalid o = true) objs ->
  Forall (fun e => snd e = Str "NA") d ->
  Forall (fun e => snd e = Str "NA") (fill objs d).
Proof.
  intros Ho; revert d; induction Ho as [|o objs Hv _ IH]; intros d Hd; simpl;
    [exact Hd|].
  apply IH. unfold entry_value. unfold invalid in Hv. rewrite Hv. simpl.
  clear IH. induction Hd as [|[k v] t Hk Ht IHd]; simpl.
  - repeat constructor.
  - destruct (String.eqb (fst o) k); constructor; simpl; auto.
Qed.

(** ** The padding loop *)

Lemma NA_key_inj (i j : nat) :
  (i < 3)%nat -> (j < 3)%nat -> NA_key i = NA_key j -> i = j.
Proof.
  intros Hi Hj.
  destruct i as [|[|[|i]]]; destruct j as [|[|[|j]]]; try lia;
    vm_compute; intros H; solve [reflexivity | discriminate H].
Qed.

Lemma padding_step (n : nat) :
  (n < 3)%nat -> padding n = placeholder n :: padding (S n).
Proof.
  intros H. unfold padding.
  replace (3 - n)%nat with (S (3 - S n)) by lia. reflexivity.
Qed.

Lemma padding_done (n : nat) : (3 <= n)%nat -> padding n = [].
Proof.
  intros H. unfold padding. now replace (3 - n)%nat with 0%nat by lia.
Qed.

Lemma padding_length (n : nat) : length (padding n) = (3 - n)%nat.
Proof. unfold padding. now rewrite length_map, length_seq. Qed.

Lemma padding_keys (n : nat) (k : string) :
  In k (keys (padding n)) <-> exists i, (n <= i < 3)%nat /\ k = NA_key i.
Proof.
  unfold keys, padding. rewrite map_map, in_map_iff.
  split; intros [i [H1 H2]]; exists i.
  - apply in_seq in H2. split; [lia|now rewrite <- H1].
  - split; [now rewrite H2|]. apply in_seq. lia.
Qed.

Lemma padding_NoDup (n : nat) : NoDup (keys (padding n)).
Proof.
  destruct n as [|[|[|n]]]; try (rewrite padding_done by lia; constructor).
  all: vm_compute; repeat constructor; simpl; intuition discriminate.
Qed.

(** With fresh placeholder keys the loop ends within three rounds. *)
Lemma pad_fresh (fuel : nat) (d : dict) :
  fresh_padding d -> (3 <= length d + fuel)%nat ->
  pad fuel d = Some (d ++ padding (length d)).
Proof.
  revert d; induction fuel as [|fuel IH]; intros d Hf Hl; cbn [pad];
    destruct (Nat.ltb_spec (length d) 3) as [Hlt|Hge];
    try (rewrite padding_done, app_nil_r by lia; reflexivity); [lia|].
  assert (Hn : ~ In (NA_key (length d)) (keys d)) by (apply Hf; lia).
  rewrite dict_set_fresh by exact Hn.
  rewrite IH.
  - rewrite length_app. simpl length.
    replace (length d + 1)%nat with (S (length d)) by lia.
    now rewrite <- app_assoc, (padding_step (length d)) by lia.
  - intros i Hi. rewrite length_app in Hi. simpl in Hi.
    unfold keys. rewrite map_app, in_app_iff. simpl.
    intros [H|[H|[]]].
    + apply (Hf i); [lia|exact H].
    + apply NA_key_inj in H; lia.
  - rewrite length_app. simpl. lia.
Qed.

(** A result of the loop, on any fuel, is the dictionary followed by the
    placeholders, and their keys were fresh. *)
Lemma pad_Some_inv (fuel : nat) (d r : dict) :
  pad fuel d = Some r -> fresh_padding d /\ r = d ++ padding (length d).
Proof.
  revert d; induction fuel as [|fuel IH]; intros d; cbn [pad];
    destruct (Nat.ltb_spec (length d) 3) as [Hlt|Hge]; intros H;
    try discriminate;
    try (inversion H; subst; rewrite padding_done, app_nil_r by lia;
         split; [intros i Hi; lia|reflexivity]).
  apply IH in H. destruct H as [Hf Hr].
  destruct (in_dec string_dec (NA_key (length d)) (keys d)) as [Hin|Hn].
  - exfalso. apply (Hf (length d)).
    + rewrite dict_set_length.
      destruct (in_dec string_dec (NA_key (length d)) (keys d)); [lia|tauto].
    + now rewrite dict_set_keys_in.
  - rewrite dict_set_fresh in Hf, Hr by exact Hn.
    rewrite length_app in Hr. simpl length in Hr.
    replace (length d + 1)%nat with (S (length d)) in Hr by lia.
    rewrite <- app_assoc in Hr. cbn [app] in Hr.
    split; [|now rewrite (padding_step (length d)) by lia].
    intros i Hi Hk.
    destruct (Nat.eq_dec i (length d)) as [->|Hne]; [tauto|].
    apply (Hf i).
    + rewrite length_app. simpl. lia.
    + unfold keys in *. rewrite map_app, in_app_iff. now left.
Qed.

(** When a placeholder key is already taken the loop never ends. *)
Lemma pad_collision (d : dict) :
  ~ fresh_padding d -> forall fuel, pad fuel d = None.
Proof.
  intros Hc fuel. destruct (pad fuel d) as [r|] eqn:E; [|reflexivity].
  apply pad_Some_inv in E. tauto.
Qed.

Lemma ranked_length (objs : list fused_object) :
  (length (ranked objs) <= 3)%nat.
Proof. rewrite ranked_firstn, length_firstn. lia. Qed.

Lemma ranked_incl (objs : list fused_object) (o : fused_object) :
  In o (ranked objs) -> In o objs.
Proof.
  rewrite ranked_firstn. intros H.
  apply (Permutation_in o (sorted_perm objs)).
  rewrite <- (firstn_skipn 3 (sorted objs)). apply in_or_app. now left.
Qed.

(** What [organize_data] returns, when it returns. *)
Lemma organize_data_inv (fuel : nat) (objs : list fused_object) (rec : dict) :
  organize_data fuel objs = Some rec ->
  rec = fill (ranked objs) [] ++ padding (length (fill (ranked objs) []))
  /\ fresh_padding (fill (ranked objs) [])
  /\ length rec = 3%nat
  /\ NoDup (keys rec).
Proof.
  unfold organize_data. intros H. apply pad_Some_inv in H.
  destruct H as [Hf ->].
  set (d := fill (ranked objs) []) in *.
  assert (Hlen : (length d <= 3)%nat).
  { pose proof (fill_length (ranked objs) []).
    pose proof (ranked_length objs). simpl in *. subst d. lia. }
  repeat split; auto.
  - rewrite length_app, padding_length. lia.
  - unfold keys. rewrite map_app. apply NoDup_app.
    + apply fill_NoDup. constructor.
    + apply padding_NoDup.
    + intros k Hk Hp. apply padding_keys in Hp.
      destruct Hp as [i [Hi ->]]. now apply (Hf i).
Qed.

Lemma organize_data_returns (objs : list fused_object) :
  (forall l, In l (map fst (ranked objs)) -> l <> NA_key 1 /\ l <> NA_key 2) ->
  fresh_padding (fill (ranked objs) []) /\
  organize_data 3 objs
  = Some (fill (ranked objs) [] ++ padding (length (fill (ranked objs) []))).
Proof.
  intros Hl.
  assert (Hf : fresh_padding (fill (ranked objs) [])).
  { intros i Hi Hk. apply fill_keys in Hk. destruct Hk as [[]|Hk].
    destruct (ranked objs) as [|o t] eqn:E; [contradiction|].
    assert (H1 : (1 <= length (fill (o :: t) []))%nat)
      by (apply fill_nonempty; discriminate).
    destruct (Hl _ Hk) as [Ha Hb].
    assert (Hi' : i = 1%nat \/ i = 2%nat) by lia.
    destruct Hi' as [-> | ->]; contradiction. }
  split; [exact Hf|]. unfold organize_data. apply pad_fresh; [exact Hf|lia].
Qed.

(** The record does not depend on the fuel: three rounds are enough
    whenever any number of rounds is. *)
Lemma organize_data_fuel (fuel fuel' : nat) (objs : list fused_object)
  (rec : dict) :
  organize_data fuel objs = Some rec -> (3 <= fuel')%nat ->
  organize_data fuel' objs = Some rec.
Proof.
  unfold organize_data. intros H Hf. apply pad_Some_inv in H.
  destruct H as [Hfresh ->]. apply pad_fresh; [exact Hfresh|lia].
Qed.

Lemma invalid_nonneg (objs : list fused_object) :
  Forall (fun o => invalid o = true) objs ->
  Forall (fun o => (0 <= snd o)%Q) objs.
Proof.
  apply Forall_impl. intros o H. unfold invalid in H.
  apply Qeq_bool_iff in H. rewrite H. apply Qle_refl.
Qed.

Lemma filter_all {A : Type} (f : A -> bool) (l : list A) :
  Forall (fun a => f a = true) l -> filter f l = l.
Proof. induction 1 as [|x t Hx _ IH]; simpl; [|rewrite Hx, IH]; reflexivity. Qed.

Lemma filter_none {A : Type} (f : A -> bool) (l : list A) :
  Forall (fun a => f a = true) l -> filter (fun a => negb (f a)) l = [].
Proof. induction 1 as [|x t Hx _ IH]; simpl; [|rewrite Hx]; auto. Qed.

Lemma ranked_all_invalid (objs : list fused_object) :
  Forall (fun o => invalid o = true) objs -> ranked objs = firstn 3 objs.
Proof.
  intros H. rewrite ranked_firstn.
  rewrite sorted_invalid_first by now apply invalid_nonneg.
  rewrite (filter_all invalid objs H).
  unfold valid. rewrite (filter_none invalid objs H). simpl. now rewrite app_nil_r.
Qed.

(** ** Ranker / Formatter *)

(** C1, on the code.  Nothing is removed before the sort: with distances
    that are not negative the invalid objects (distance 0) sort first, in
    input order, ahead of the valid ones in ascending order, and each of the
    first three invalid objects has its label as a key of the record.  For
    the distances 500 mm, 100 mm, invalid under the labels chair, person,
    NA the record is NA -> "NA", person -> 0.1, chair -> 0.5: person is
    ranked before chair, the invalid object holds the first slot and no
    placeholder is added. *)
Theorem organize_data_invalid_first (objs : list fused_object) :
  Forall (fun o => (0 <= snd o)%Q) objs ->
  ranked objs = firstn 3 (filter invalid objs ++ sorted (filter valid objs)) /\
  (forall fuel rec o, organize_data fuel objs = Some rec ->
     In o (firstn 3 (filter invalid objs)) -> In (fst o) (keys rec)) /\
  organize_data 3 chair_person_NA
  = Some [("NA", Str "NA"); ("person", Num (1#10)); ("chair", Num (1#2))]%string.
Proof.
  intros Hpos.
  assert (Hr : ranked objs
               = firstn 3 (filter invalid objs ++ sorted (filter valid objs))).
  { rewrite ranked_firstn. now rewrite sorted_invalid_first. }
  split; [exact Hr|]. split; [|vm_compute; reflexivity].
  intros fuel rec o Hrec Ho.
  apply organize_data_inv in Hrec. destruct Hrec as (-> & _).
  unfold keys. rewrite map_app, in_app_iff. left.
  apply fill_keys. right. apply in_map.
  rewrite Hr, firstn_app. apply in_or_app. now left.
Qed.

Lemma organize_data_invalid_first_witness :
  ranked chair_person_NA
  = [("NA", 0#1); ("person", 100#1); ("chair", 500#1)]%string /\
  In "NA"%string
     (keys [("NA", Str "NA"); ("person", Num (1#10)); ("chair", Num (1#2))]%string).
Proof.
  assert (Hpos : Forall (fun o => (0 <= snd o)%Q) chair_person_NA).
  { repeat constructor; vm_compute; discriminate. }
  destruct (organize_data_invalid_first chair_person_NA Hpos) as (Hr & Hk & He).
  split.
  - rewrite Hr. vm_compute. reflexivity.
  - apply (Hk 3%nat _ ("NA"%string, 0#1) He). vm_compute. now left.
Defined.

(** C1 as stated fails: on the scenario's input the invalid object is not
    removed, its entry is in the record, and the third slot holds chair,
    not a placeholder. *)
Lemma organize_data_keeps_invalid :
  organize_data 3 chair_person_NA
  = Some [("NA", Str "NA"); ("person", Num (1#10)); ("chair", Num (1#2))]%string
  /\ ~ (forall objs rec o, organize_data 3 objs = Some rec ->
          In o objs -> invalid o = true -> ~ In (entry o) rec)
  /\ ~ (forall rec, organize_data 3 chair_person_NA = Some rec ->
          nth_error rec 2 = Some (placeholder 2)).
Proof.
  assert (E : organize_data 3 chair_person_NA
    = Some [("NA", Str "NA"); ("person", Num (1#10)); ("chair", Num (1#2))]%string)
    by (vm_compute; reflexivity).
  split; [exact E|]. split.
  - intros H. apply (H _ _ ("NA"%string, 0#1) E).
    + simpl. auto.
    + reflexivity.
    + vm_compute. now left.
  - intros H. specialize (H _ E). vm_compute in H. discriminate H.
Qed.

(** C2 as stated fails: a single object of invalid distance leaves zero
    valid objects, yet the record is chair -> "NA", NA_1, NA_2, not the
    three placeholders. *)
Lemma organize_data_invalid_not_placeholder :
  organize_data 3 chair_invalid
  = Some [("chair", Str "NA"); ("NA_1", Str "NA"); ("NA_2", Str "NA")]%string
  /\ ~ (forall objs, Forall (fun o => invalid o = true) objs ->
          organize_data 3 objs
          = Some [("NA_0", Str "NA"); ("NA_1", Str "NA"); ("NA_2", Str "NA")]%string).
Proof.
  split; [vm_compute; reflexivity|].
  intros H. specialize (H chair_invalid).
  assert (Hinv : Forall (fun o => invalid o = true) chair_invalid)
    by (repeat constructor).
  specialize (H Hinv). vm_compute in H. discriminate H.
Qed.

(** When none of the three ranked objects is labelled
    NA_1 or NA_2, [organize_data] returns within three rounds of padding a
    record of exactly 3 entries with pairwise distinct keys: the entries
    written for the ranked objects followed by the placeholders, whose keys
    differ from each other and from every ranked label. *)
Theorem organize_data_three_entries (objs : list fused_object) :
  (forall l, In l (map fst (ranked objs)) ->
             l <> "NA_1"%string /\ l <> "NA_2"%string) ->
  exists rec,
    organize_data 3 objs = Some rec /\
    length rec = 3%nat /\
    NoDup (keys rec) /\
    rec = fill (ranked objs) [] ++ padding (length (fill (ranked objs) [])) /\
    NoDup (keys (padding (length (fill (ranked objs) [])))) /\
    (forall k, In k (keys (padding (length (fill (ranked objs) [])))) ->
               ~ In k (map fst (ranked objs))).
Proof.
  intros Hl. destruct (organize_data_returns objs Hl) as [Hf E].
  eexists. split; [exact E|].
  destruct (organize_data_inv _ _ _ E) as (_ & _ & Hlen & Hnd).
  repeat split; auto using padding_NoDup.
  intros k Hk Hin. apply padding_keys in Hk. destruct Hk as [i [Hi ->]].
  apply (Hf i Hi). apply fill_keys. now right.
Qed.

Lemma organize_data_three_entries_witness :
  exists rec, organize_data 3 cup_dog_cup = Some rec /\ length rec = 3%nat.
Proof.
  destruct (organize_data_three_entries cup_dog_cup) as (rec & E & Hlen & _).
  - vm_compute. intros l [<-|[<-|[<-|[]]]]; split; discriminate.
  - exists rec. now split.
Defined.

(** C4 at the failing input: for one object labelled NA_1 the [for] loop
    leaves one key, NA_1; the padding loop writes the key NA_1 again, the
    length stays 1, and the same happens on every round, so no record is
    returned on any fuel. *)
Lemma organize_data_NA_1_diverges :
  fill (ranked labelled_NA_1) [] = [("NA_1"%string, Num (1#10))] /\
  dict_set (NA_key 1) (Str "NA") [("NA_1"%string, Num (1#10))]
  = [("NA_1"%string, Str "NA")] /\
  dict_set (NA_key 1) (Str "NA") [("NA_1"%string, Str "NA")]
  = [("NA_1"%string, Str "NA")] /\
  ~ (exists fuel rec, organize_data fuel labelled_NA_1 = Some rec).
Proof.
  repeat split; try (vm_compute; reflexivity).
  intros (fuel & rec & E). unfold organize_data in E.
  rewrite pad_collision in E; [discriminate E|].
  intros Hf. apply (Hf 1%nat); vm_compute; [lia|now left].
Qed.

Lemma fill_duplicate_length (pre post : list fused_object) (l : string)
  (q : Q) (d : dict) :
  In l (map fst pre) ->
  (length (fill (pre ++ (l, q) :: post) d)
   < length d + length (pre ++ (l, q) :: post))%nat.
Proof.
  intros Hin. rewrite fill_app.
  change (fill ((l, q) :: post) (fill pre d))
    with (fill post (dict_set l (entry_value q) (fill pre d))).
  pose proof (fill_length post (dict_set l (entry_value q) (fill pre d)))
    as Hpost.
  rewrite dict_set_length in Hpost.
  destruct (in_dec string_dec l (keys (fill pre d))) as [_|Hn].
  - pose proof (fill_length pre d). rewrite length_app. simpl length. lia.
  - exfalso. apply Hn. apply fill_keys. now right.
Qed.

(** C7.  When two of the ranked objects share a label, the record keeps a
    single entry under that label, holding the value written for the later
    of them; the dictionary after the loop has fewer entries than there are
    ranked objects, and nothing tells the two apart. *)
Theorem organize_data_duplicate_label
  (objs pre post : list fused_object) (l : string) (q : Q) :
  ranked objs = pre ++ (l, q) :: post ->
  In l (map fst pre) ->
  ~ In l (map fst post) ->
  filter (has_key l) (fill (ranked objs) []) = [(l, entry_value q)] /\
  (length (fill (ranked objs) []) < length (ranked objs))%nat /\
  (forall fuel rec, organize_data fuel objs = Some rec ->
     filter (has_key l) rec = [(l, entry_value q)]).
Proof.
  intros Hr Hpre Hpost.
  assert (Hin : In (l, entry_value q) (fill (ranked objs) [])).
  { rewrite Hr. now apply fill_last. }
  split; [|split].
  - apply NoDup_keys_filter; [apply fill_NoDup; constructor|exact Hin].
  - rewrite Hr. now apply (fill_duplicate_length pre post l q []).
  - intros fuel rec Hrec. apply organize_data_inv in Hrec.
    destruct Hrec as (Erec & _ & _ & Hnd).
    apply NoDup_keys_filter; [exact Hnd|].
    rewrite Erec. apply in_or_app. now left.
Qed.

Lemma organize_data_duplicate_label_witness :
  organize_data 3 cup_dog_cup
  = Some [("cup", Num (3#10)); ("dog", Num (1#5)); ("NA_2", Str "NA")]%string /\
  filter (has_key "cup")
    [("cup", Num (3#10)); ("dog", Num (1#5)); ("NA_2", Str "NA")]%string
  = [("cup"%string, entry_value (300#1))].
Proof.
  assert (E : organize_data 3 cup_dog_cup
    = Some [("cup", Num (3#10)); ("dog", Num (1#5)); ("NA_2", Str "NA")]%string)
    by (vm_compute; reflexivity).
  split; [exact E|].
  destruct (organize_data_duplicate_label cup_dog_cup
              [("cup", 100#1); ("dog", 200#1)]%string [] "cup"%string (300#1))
    as (_ & _ & H).
  - vm_compute. reflexivity.
  - simpl. now left.
  - simpl. tauto.
  - exact (H 3%nat _ E).
Defined.



(** ** Further properties of [organize_data] *)

(** X1.  [organize_data] returns exactly when no key written by the [for]
    loop is one of the placeholder keys that the padding has still to write;
    it then returns within three rounds of the [while] loop, the same record
    on any larger fuel, and otherwise it loops on every fuel. *)
Theorem organize_data_returns_iff (objs : list fused_object) :
  ((exists fuel rec, organize_data fuel objs = Some rec)
   <-> fresh_padding (fill (ranked objs) [])) /\
  (fresh_padding (fill (ranked objs) []) ->
   forall fuel, (3 <= fuel)%nat ->
     organize_data fuel objs
     = Some (fill (ranked objs) []
             ++ padding (length (fill (ranked objs) [])))) /\
  (~ fresh_padding (fill (ranked objs) []) ->
   forall fuel, organize_data fuel objs = None).
Proof.
  assert (Hret : fresh_padding (fill (ranked objs) []) ->
            forall fuel, (3 <= fuel)%nat ->
            organize_data fuel objs
            = Some (fill (ranked objs) []
                    ++ padding (length (fill (ranked objs) [])))).
  { intros Hf fuel Hfuel. unfold organize_data. apply pad_fresh; [exact Hf|lia]. }
  split; [split|split].
  - intros (fuel & rec & E). now apply organize_data_inv in E.
  - intros Hf. exists 3%nat. eexists. apply Hret; [exact Hf|lia].
  - exact Hret.
  - intros Hn fuel. unfold organize_data. now apply pad_collision.
Qed.

Lemma organize_data_returns_iff_witness :
  organize_data 5 cup_dog_cup
  = Some [("cup", Num (3#10)); ("dog", Num (1#5)); ("NA_2", Str "NA")]%string
  /\ organize_data 5 labelled_NA_1 = None.
Proof.
  destruct (organize_data_returns_iff cup_dog_cup) as (_ & Hret & _).
  destruct (organize_data_returns_iff labelled_NA_1) as (_ & _ & Hnone).
  split.
  - rewrite Hret; [vm_compute; reflexivity| |lia].
    intros i Hi. vm_compute in Hi. vm_compute.
    assert (Hi2 : i = 2%nat) by lia. subst i.
    intros [H|[H|[]]]; discriminate H.
  - apply Hnone. intros Hf. apply (Hf 1%nat); vm_compute; [lia|now left].
Defined.

Lemma sorted_id (l : list fused_object) :
  StronglySorted by_distance l -> sorted l = l.
Proof.
  induction 1 as [|x t Ht IH Hx]; [reflexivity|].
  cbn [sorted]. rewrite IH. destruct t as [|y u]; [reflexivity|].
  cbn [insert_by_distance].
  replace (Qle_bool (snd x) (snd y)) with true; [reflexivity|].
  symmetry. apply Qle_bool_iff. now inversion Hx.
Qed.

Lemma ranked_idem (objs : list fused_object) :
  ranked (ranked objs) = ranked objs.
Proof.
  rewrite (ranked_firstn (ranked objs)), sorted_id.
  - rewrite ranked_firstn, firstn_firstn. reflexivity.
  - rewrite ranked_firstn. apply StronglySorted_firstn, sorted_sorted.
Qed.

(** X2.  The record depends on the three ranked objects only: organising
    the ranked objects alone gives what organising the whole list gives. *)
Theorem organize_data_of_ranked (fuel : nat) (objs : list fused_object) :
  organize_data fuel (ranked objs) = organize_data fuel objs.
Proof. unfold organize_data. now rewrite ranked_idem. Qed.

Lemma sorted_lists_equal (s s' : list fused_object) :
  StronglySorted by_distance s -> StronglySorted by_distance s' ->
  Permutation s s' -> distinct_distances s -> s = s'.
Proof.
  intros Hs; revert s'; induction Hs as [|x t Ht IH Hx]; intros s' Hs' Hp Hd.
  - apply Permutation_nil in Hp. now subst.
  - destruct Hs' as [|x' t' Ht' Hx'].
    + symmetry in Hp. now apply Permutation_nil in Hp.
    + assert (E : x = x').
      { assert (H1 : In x (x' :: t')) by
          (apply (Permutation_in x Hp); now left).
        assert (H2 : In x' (x :: t)) by
          (apply (Permutation_in x' (Permutation_sym Hp)); now left).
        destruct H1 as [H1|H1]; [now symmetry|].
        destruct H2 as [H2|H2]; [exact H2|].
        apply Hd; [now left|now right|].
        rewrite Forall_forall in Hx, Hx'.
        apply Qle_antisym; [apply (Hx _ H2)|apply (Hx' _ H1)]. }
      subst x'. f_equal. apply IH; [exact Ht'| |].
      * now apply Permutation_cons_inv in Hp.
      * intros a b Ha Hb. apply Hd; now right.
Qed.

(** X3.  When no two objects have the same distance, the order of the
    detections does not matter: a permutation of the list gives the same
    ranking and the same record. *)
Theorem organize_data_order_irrelevant
  (fuel : nat) (objs objs' : list fused_object) :
  Permutation objs objs' -> distinct_distances objs ->
  ranked objs = ranked objs' /\
  organize_data fuel objs = organize_data fuel objs'.
Proof.
  intros Hp Hd.
  assert (E : sorted objs = sorted objs').
  { apply sorted_lists_equal; try apply sorted_sorted.
    - rewrite (sorted_perm objs), Hp. symmetry. apply sorted_perm.
    - intros a b Ha Hb. apply Hd;
        apply (Permutation_in _ (sorted_perm objs)); assumption. }
  assert (Er : ranked objs = ranked objs')
    by (now rewrite !ranked_firstn, E).
  split; [exact Er|]. unfold organize_data. now rewrite Er.
Qed.

Lemma organize_data_order_irrelevant_witness :
  organize_data 3 [("person", 100#1); ("chair", 500#1); ("NA", 0#1)]%string
  = Some [("NA", Str "NA"); ("person", Num (1#10)); ("chair", Num (1#2))]%string.
Proof.
  destruct (organize_data_order_irrelevant 3 chair_person_NA
              [("person", 100#1); ("chair", 500#1); ("NA", 0#1)]%string)
    as [_ E].
  - apply perm_swap.
  - intros a b Ha Hb. simpl in Ha, Hb.
    destruct Ha as [<-|[<-|[<-|[]]]]; destruct Hb as [<-|[<-|[<-|[]]]];
      intros H; solve [reflexivity | vm_compute in H; discriminate H].
  - rewrite <- E. vm_compute. reflexivity.
Defined.

Lemma dict_set_In_inv (k : string) (v : value) (d : dict)
  (e : string * value) :
  In e (dict_set k v d) -> e = (k, v) \/ In e d.
Proof.
  induction d as [|[k' v'] t IH]; simpl.
  - intros [H|[]]. now left.
  - destruct (String.eqb k k'); simpl; intros [H|H]; auto.
    destruct (IH H); auto.
Qed.

Lemma fill_In_inv (objs : list fused_object) (d : dict) (e : string * value) :
  In e (fill objs d) -> In e d \/ exists o, In o objs /\ e = entry o.
Proof.
  revert d; induction objs as [|o objs IH]; intros d; simpl; [now left|].
  intros H. apply IH in H. destruct H as [H|[o' [Ho' He]]].
  - apply dict_set_In_inv in H. destruct H as [H|H]; [|now left].
    right. exists o. split; [now left|exact H].
  - right. exists o'. split; [now right|exact He].
Qed.

(** X4.  The record holds nothing that was not in the input: a number under
    a key is the distance of an input object of that label, not 0, divided
    by 1000 and rounded to two decimals; the only string is "NA", under the
    label of an input object of distance 0 or under a placeholder key. *)
Theorem organize_data_sound (fuel : nat) (objs : list fused_object)
  (rec : dict) :
  organize_data fuel objs = Some rec ->
  (forall k q, In (k, Num q) rec ->
     exists d, In (k, d) objs /\ ~ d == 0 /\ q = round2 (d / 1000)) /\
  (forall k s, In (k, Str s) rec ->
     s = "NA"%string /\
     ((exists d, In (k, d) objs /\ d == 0) \/
      (exists i, (i < 3)%nat /\ k = NA_key i))).
Proof.
  intros E. apply organize_data_inv in E. destruct E as (-> & _).
  assert (Hfill : forall e, In e (fill (ranked objs) []) ->
            exists o, In o objs /\ e = entry o).
  { intros e He. apply fill_In_inv in He.
    destruct He as [[]|[o [Ho He]]]. exists o. split; [|exact He].
    now apply ranked_incl. }
  assert (Hpad : forall e n, In e (padding n) ->
            exists i, (i < 3)%nat /\ e = placeholder i).
  { intros e n He. unfold padding in He. apply in_map_iff in He.
    destruct He as [i [<- Hi]]. apply in_seq in Hi. exists i.
    split; [lia|reflexivity]. }
  split.
  - intros k q Hin. apply in_app_or in Hin. destruct Hin as [Hin|Hin].
    + destruct (Hfill _ Hin) as [[l d] [Ho He]].
      unfold entry, entry_value in He. simpl in He.
      destruct (Qeq_bool d 0) eqn:Ed; simpl in He; inversion He; subst.
      exists d. split; [exact Ho|]. split; [|reflexivity].
      intros H0. apply Qeq_bool_iff in H0. congruence.
    + destruct (Hpad _ _ Hin) as [i [_ He]]. discriminate He.
  - intros k s0 Hin. apply in_app_or in Hin. destruct Hin as [Hin|Hin].
    + destruct (Hfill _ Hin) as [[l d] [Ho He]].
      unfold entry, entry_value in He. simpl in He.
      destruct (Qeq_bool d 0) eqn:Ed; simpl in He; inversion He; subst.
      split; [reflexivity|]. left. exists d. split; [exact Ho|].
      now apply Qeq_bool_iff.
    + destruct (Hpad _ _ Hin) as [i [Hi He]]. inversion He; subst.
      split; [reflexivity|]. right. now exists i.
Qed.

Lemma organize_data_sound_witness :
  exists d, In ("cup"%string, d) cup_dog_cup /\ ~ d == 0
            /\ (3#10) = round2 (d / 1000).
Proof.
  assert (E : organize_data 3 cup_dog_cup
    = Some [("cup", Num (3#10)); ("dog", Num (1#5)); ("NA_2", Str "NA")]%string)
    by (vm_compute; reflexivity).
  destruct (organize_data_sound 3 cup_dog_cup _ E) as [H _].
  apply (H "cup"%string (3#10)). simpl. now left.
Defined.

Lemma StronglySorted_app_le {A : Type} (R : A -> A -> Prop) (a b : list A) :
  StronglySorted R (a ++ b) -> forall x y, In x a -> In y b -> R x y.
Proof.
  induction a as [|h a IH]; simpl; intros Hs x y Hx Hy; [contradiction|].
  inversion Hs as [|? ? Hs' Hh]; subst. destruct Hx as [<-|Hx].
  - rewrite Forall_forall in Hh. apply Hh, in_or_app. now right.
  - now apply IH.
Qed.

(** X5.  The ranked objects are the nearest ones: the input splits into the
    ranked objects and the others, there are three ranked objects or all of
    them, and no object left out is nearer than a ranked one. *)
Theorem ranked_nearest (objs : list fused_object) :
  exists rest,
    Permutation objs (ranked objs ++ rest) /\
    length (ranked objs) = Nat.min 3 (length objs) /\
    (forall p o, In p (ranked objs) -> In o rest -> (snd p <= snd o)%Q).
Proof.
  exists (skipn 3 (sorted objs)). rewrite ranked_firstn.
  split; [|split].
  - rewrite firstn_skipn. symmetry. apply sorted_perm.
  - rewrite length_firstn. f_equal.
    apply Permutation_length, sorted_perm.
  - apply (StronglySorted_app_le by_distance).
    rewrite firstn_skipn. apply sorted_sorted.
Qed.

(** ** Further properties of [calculate_distance] *)

Lemma slice_incl {A : Type} (a b : Z) (l : list A) (v : A) :
  In v (slice a b l) -> In v l.
Proof.
  unfold slice. intros H.
  rewrite <- (firstn_skipn (Z.to_nat (slice_bound (Z.of_nat (length l)) a)) l).
  apply in_or_app. right.
  match type of H with In _ (firstn ?n ?t) =>
    rewrite <- (firstn_skipn n t); apply in_or_app; now left end.
Qed.

Lemma region_incl (self : ObjectDetector) (img : depth_image) (x y : Z)
  (v : N) :
  In v (concat (region self img x y)) -> In v (concat img).
Proof.
  unfold region, slice2. rewrite !in_concat.
  intros (row & Hrow & Hv). apply in_map_iff in Hrow.
  destruct Hrow as (row0 & <- & Hrow0).
  exists row0. split; [now apply slice_incl in Hrow0|now apply slice_incl in Hv].
Qed.

Lemma total_bounds (lo hi : N) (l : list N) :
  Forall (fun v => (lo <= v <= hi)%N) l ->
  Z.of_N lo * Z.of_nat (length l) <= total l
  <= Z.of_N hi * Z.of_nat (length l).
Proof.
  induction 1 as [|v l Hv _ IH]; [simpl; lia|].
  cbn [total fold_right length] in *. fold (total l). lia.
Qed.

Lemma np_mean_bounds (lo hi : N) (l : list N) :
  l <> [] -> Forall (fun v => (lo <= v <= hi)%N) l ->
  (inject_Z (Z.of_N lo) <= np_mean l <= inject_Z (Z.of_N hi))%Q.
Proof.
  intros Hne Hl. pose proof (total_bounds lo hi l Hl) as [H1 H2].
  assert (Hn : (0 < inject_Z (Z.of_nat (length l)))%Q).
  { rewrite <- (Zlt_Qlt 0). destruct l; [congruence|simpl; lia]. }
  unfold np_mean. split.
  - apply Qle_shift_div_l; [exact Hn|].
    now rewrite <- inject_Z_mult, <- Zle_Qle.
  - apply Qle_shift_div_r; [exact Hn|].
    now rewrite <- inject_Z_mult, <- Zle_Qle.
Qed.

(** X6.  The distance sampled is never outside the range of the samples:
    when every sample of the image lies between [lo] and [hi], the distance
    is 0 or lies between [lo] and [hi], and a valid distance is at least
    1 mm. *)
Theorem calculate_distance_within
  (self : ObjectDetector) (img : depth_image) (x y : Q) (lo hi : N) :
  samples_within lo hi img ->
  (0 <= calculate_distance self img x y <= inject_Z (Z.of_N hi))%Q /\
  (~ calculate_distance self img x y == 0 ->
   (1 <= calculate_distance self img x y)%Q /\
   (inject_Z (Z.of_N lo) <= calculate_distance self img x y)%Q).
Proof.
  intros Hw. rewrite calculate_distance_eq.
  pose proof (nonzero_Forall (region self img (int x) (int y))) as Hnz.
  assert (Hb : Forall (fun v => (N.max 1 lo <= v <= hi)%N)
                 (nonzero (region self img (int x) (int y)))).
  { apply Forall_forall. intros v Hv.
    rewrite Forall_forall in Hnz. pose proof (Hnz v Hv) as Hv0.
    unfold nonzero in Hv. apply filter_In in Hv. destruct Hv as [Hv _].
    apply region_incl, in_concat in Hv. destruct Hv as (row & Hrow & Hv).
    unfold samples_within in Hw. rewrite Forall_forall in Hw.
    specialize (Hw row Hrow). rewrite Forall_forall in Hw.
    specialize (Hw v Hv). lia. }
  destruct (nonzero (region self img (int x) (int y))) as [|v l] eqn:E.
  - split; [|intros H; now elim H].
    split; [apply Qle_refl|]. rewrite <- (Zle_Qle 0). lia.
  - destruct (np_mean_bounds _ _ (v :: l) ltac:(discriminate) Hb) as [H1 H2].
    assert (Hlo : (inject_Z 1 <= np_mean (v :: l)
                   /\ inject_Z (Z.of_N lo) <= np_mean (v :: l))%Q).
    { split; (eapply Qle_trans; [|exact H1]); rewrite <- Zle_Qle; lia. }
    destruct Hlo as [Hone Hlo]. repeat split; auto.
    eapply Qle_trans; [|exact Hone]. rewrite <- (Zle_Qle 0). lia.
Qed.

Lemma calculate_distance_within_witness :
  (0 <= calculate_distance ObjectDetector_init uniform_image (5#1) (5#1)
   <= 1000#1)%Q.
Proof.
  refine (proj1 (calculate_distance_within ObjectDetector_init uniform_image
                   (5#1) (5#1) 1000 1000 _)).
  unfold samples_within, uniform_image.
  apply Forall_forall. intros row Hrow. apply repeat_spec in Hrow. subst row.
  apply Forall_forall. intros v Hv. apply repeat_spec in Hv. subst v. lia.
Defined.

Lemma slice_wrap_empty {A : Type} (a b : Z) (l : list A) :
  a < 0 -> 0 <= b -> b - a <= Z.of_nat (length l) -> slice a b l = [].
Proof.
  intros Ha Hb Hlen. unfold slice, slice_bound.
  replace (a <? 0) with true by (symmetry; apply Z.ltb_lt; lia).
  replace (b <? 0) with false by (symmetry; apply Z.ltb_ge; lia).
  replace (Z.to_nat _) with 0%nat at 1; [reflexivity|]. lia.
Qed.

Lemma slice_beyond {A : Type} (a b : Z) (l : list A) :
  Z.of_nat (length l) <= a -> slice a b l = [].
Proof.
  intros Ha. unfold slice, slice_bound.
  replace (a <? 0) with false by (symmetry; apply Z.ltb_ge; lia).
  rewrite (Z.min_r a) by lia. rewrite Nat2Z.id.
  rewrite skipn_all. apply firstn_nil.
Qed.

Lemma concat_nils {A : Type} (l : list (list A)) :
  Forall (fun r => r = []) l -> concat l = [].
Proof. induction 1 as [|r l Hr _ IH]; simpl; [|rewrite Hr, IH]; reflexivity. Qed.

Lemma calculate_distance_empty_rows (self : ObjectDetector)
  (img : depth_image) (x y : Q) :
  Forall (fun r => r = []) (region self img (int x) (int y)) ->
  calculate_distance self img x y = 0%Q.
Proof.
  intros H. rewrite calculate_distance_eq. unfold nonzero.
  now rewrite (concat_nils _ H).
Qed.

Lemma region_rows (self : ObjectDetector) (img : depth_image) (x y : Z)
  (P : list N -> Prop) :
  (forall row, In row img ->
     P (slice (x - range_value self) (x + range_value self + 1) row)) ->
  Forall P (region self img x y).
Proof.
  intros H. unfold region, slice2. apply Forall_forall. intros r Hr.
  apply in_map_iff in Hr. destruct Hr as (row & <- & Hrow).
  apply H. now apply slice_incl in Hrow.
Qed.

(** X7.  The margin of an image is blind.  On an image whose rows have at
    least [2 * range_value + 1] samples, a centre in one of the first
    [range_value] columns gets the distance 0 whatever the image holds, and
    so does, on an image of at least [2 * range_value + 1] rows, a centre in
    one of the first [range_value] rows. *)
Theorem calculate_distance_margin
  (self : ObjectDetector) (img : depth_image) (x y : Q) (w : nat) :
  2 * range_value self + 1 <= Z.of_nat w ->
  (width_is w img -> 0 <= int x < range_value self ->
   calculate_distance self img x y = 0%Q) /\
  (length img = w -> 0 <= int y < range_value self ->
   calculate_distance self img x y = 0%Q).
Proof.
  intros Hw. split.
  - intros Hrows Hx. apply calculate_distance_empty_rows, region_rows.
    intros row Hrow. unfold width_is in Hrows. rewrite Forall_forall in Hrows.
    apply slice_wrap_empty; try lia. rewrite (Hrows row Hrow). lia.
  - intros Hlen Hy. rewrite calculate_distance_eq. unfold region, slice2.
    rewrite slice_wrap_empty by lia. reflexivity.
Qed.

Lemma calculate_distance_margin_witness :
  calculate_distance ObjectDetector_init uniform_image (2#1) (5#1) = 0%Q /\
  calculate_distance ObjectDetector_init uniform_image (5#1) (2#1) = 0%Q.
Proof.
  destruct (calculate_distance_margin ObjectDetector_init uniform_image
              (2#1) (5#1) 10) as [H _]; [simpl; lia|].
  destruct (calculate_distance_margin ObjectDetector_init uniform_image
              (5#1) (2#1) 10) as [_ H']; [simpl; lia|].
  split.
  - apply H; [|vm_compute; split; [discriminate|reflexivity]].
    unfold width_is, uniform_image. simpl. repeat constructor.
  - apply H'; [reflexivity|vm_compute; split; [discriminate|reflexivity]].
Defined.

(** X8.  A centre beyond the image never fails: when the first column of
    the region lies at or after the end of every row, or its first row at
    or after the last row, the region is empty and the distance is 0. *)
Theorem calculate_distance_beyond
  (self : ObjectDetector) (img : depth_image) (x y : Q) :
  ((forall row, In row img ->
      Z.of_nat (length row) <= int x - range_value self) ->
   calculate_distance self img x y = 0%Q) /\
  (Z.of_nat (length img) <= int y - range_value self ->
   calculate_distance self img x y = 0%Q).
Proof.
  split.
  - intros H. apply calculate_distance_empty_rows, region_rows.
    intros row Hrow. now apply slice_beyond, H.
  - intros H. rewrite calculate_distance_eq. unfold region, slice2.
    now rewrite slice_beyond.
Qed.

Lemma calculate_distance_beyond_witness :
  calculate_distance ObjectDetector_init uniform_image (5#1) (60#1) = 0%Q.
Proof.
  destruct (calculate_distance_beyond ObjectDetector_init uniform_image
              (5#1) (60#1)) as [_ H].
  apply H. vm_compute. discriminate.
Defined.

(** ** Further properties of [detect_objects] *)


(** ** [send_data] and the frame loop *)




(** ** gomi2.py *)

Lemma index_nonneg {A : Type} (i : Z) (l : list A) :
  0 <= i -> Gomi2.index i l = nth_error l (Z.to_nat i).
Proof.
  intros Hi. unfold Gomi2.index.
  replace (i <? - Z.of_nat (length l)) with false
    by (symmetry; apply Z.ltb_ge; lia).
  replace (i <? 0) with false by (symmetry; apply Z.ltb_ge; lia).
  cbn [orb]. destruct (Z.leb_spec (Z.of_nat (length l)) i) as [H|H];
    [|reflexivity].
  symmetry. apply nth_error_None. lia.
Qed.

Lemma index_in_range {A : Type} (i : Z) (l : list A) :
  - Z.of_nat (length l) <= i < Z.of_nat (length l) ->
  exists v, Gomi2.index i l = Some v /\
            nth_error l (Z.to_nat (i mod Z.of_nat (length l))) = Some v.
Proof.
  intros Hi. unfold Gomi2.index. set (n := Z.of_nat (length l)) in *.
  replace (i <? - n) with false by (symmetry; apply Z.ltb_ge; lia).
  replace (n <=? i) with false by (symmetry; apply Z.leb_gt; lia).
  cbn [orb].
  assert (Hm : i mod n = if i <? 0 then i + n else i).
  { destruct (Z.ltb_spec i 0) as [H|H].
    - rewrite <- (Z_mod_plus_full i 1 n), Z.mul_1_l. apply Z.mod_small. lia.
    - apply Z.mod_small. lia. }
  rewrite Hm.
  destruct (nth_error l (Z.to_nat (if i <? 0 then i + n else i))) as [v|] eqn:E.
  - now exists v.
  - exfalso. apply nth_error_None in E.
    destruct (Z.ltb_spec i 0); subst n; lia.
Qed.

Lemma index_out_of_range {A : Type} (i : Z) (l : list A) :
  ~ (- Z.of_nat (length l) <= i < Z.of_nat (length l)) ->
  Gomi2.index i l = None.
Proof.
  intros Hi. unfold Gomi2.index.
  destruct (Z.ltb_spec i (- Z.of_nat (length l))) as [H|H]; [reflexivity|].
  destruct (Z.leb_spec (Z.of_nat (length l)) i) as [H'|H']; [reflexivity|].
  exfalso. apply Hi. lia.
Qed.

(** X14.  The single-pixel [calculate_distance] of gomi2.py, on an image of
    [h] rows of [w] samples: it returns the sample at row [int y], column
    [int x] when -h <= int y < h and -w <= int x < w, a negative index
    counting from the far edge, and it raises otherwise. *)
Theorem Gomi2_calculate_distance_index
  (img : depth_image) (x y : Q) (h w : nat) :
  length img = h -> width_is w img ->
  ((- Z.of_nat h <= int y < Z.of_nat h /\ - Z.of_nat w <= int x < Z.of_nat w) ->
   exists v, Gomi2.calculate_distance img x y = Some v /\
             sample img (int y mod Z.of_nat h) (int x mod Z.of_nat w) = Some v)
  /\
  (~ (- Z.of_nat h <= int y < Z.of_nat h /\ - Z.of_nat w <= int x < Z.of_nat w) ->
   Gomi2.calculate_distance img x y = None).
Proof.
  intros Hh Hw. unfold Gomi2.calculate_distance. split.
  - intros [Hy Hx]. rewrite <- Hh in Hy.
    destruct (index_in_range (int y) img Hy) as (row & Er & Enth).
    rewrite Er.
    assert (Hrow : length row = w).
    { unfold width_is in Hw. rewrite Forall_forall in Hw. apply Hw.
      eapply nth_error_In. exact Enth. }
    rewrite <- Hrow in Hx.
    destruct (index_in_range (int x) row Hx) as (v & Ev & Evn).
    exists v. split; [exact Ev|].
    rewrite Hh, Hrow in *. unfold sample.
    assert (Hmy : 0 <= int y mod Z.of_nat h) by (apply Z.mod_pos_bound; lia).
    assert (Hmx : 0 <= int x mod Z.of_nat w) by (apply Z.mod_pos_bound; lia).
    replace (int y mod Z.of_nat h <? 0) with false
      by (symmetry; apply Z.ltb_ge; lia).
    replace (int x mod Z.of_nat w <? 0) with false
      by (symmetry; apply Z.ltb_ge; lia).
    cbn [orb]. now rewrite Enth.
  - intros Hn.
    destruct (Gomi2.index (int y) img) as [row|] eqn:Er; [|reflexivity].
    destruct (Gomi2.index (int x) row) as [v|] eqn:Ev; [|reflexivity].
    exfalso. apply Hn.
    assert (Hy : - Z.of_nat (length img) <= int y < Z.of_nat (length img)).
    { destruct (Z_le_dec (- Z.of_nat (length img)) (int y));
        destruct (Z_lt_dec (int y) (Z.of_nat (length img))); try lia;
        rewrite index_out_of_range in Er by lia; discriminate. }
    destruct (index_in_range (int y) img Hy) as (row' & Er' & Enth).
    assert (row' = row) by congruence. subst row'.
    assert (Hrow : length row = w).
    { unfold width_is in Hw. rewrite Forall_forall in Hw. apply Hw.
      eapply nth_error_In. exact Enth. }
    split; [lia|]. rewrite <- Hrow.
    destruct (Z_le_dec (- Z.of_nat (length row)) (int x));
      destruct (Z_lt_dec (int x) (Z.of_nat (length row))); try lia;
      rewrite index_out_of_range in Ev by lia; discriminate.
Qed.

Lemma Gomi2_calculate_distance_index_witness :
  Gomi2.calculate_distance half_image (-(1#1)) (3#1) = Some 1000%N /\
  Gomi2.calculate_distance half_image (10#1) (3#1) = None.
Proof.
  assert (Hw : width_is 10 half_image).
  { unfold width_is, half_image. apply Forall_forall. intros row Hrow.
    apply repeat_spec in Hrow. now subst row. }
  destruct (Gomi2_calculate_distance_index half_image (-(1#1)) (3#1) 10 10
              eq_refl Hw) as [H _].
  destruct (Gomi2_calculate_distance_index half_image (10#1) (3#1) 10 10
              eq_refl Hw) as [_ H'].
  split.
  - destruct H as (v & -> & Hv); [vm_compute; intuition discriminate|].
    vm_compute in Hv. exact (eq_sym Hv).
  - apply H'. vm_compute. intros [_ [_ Hx]]. discriminate Hx.
Defined.

Lemma neighborhood_0 (img : depth_image) (x y : Z) :
  neighborhood 0 img x y = olist (sample img y x).
Proof.
  unfold neighborhood, zrange. change (Z.to_nat (2 * 0 + 1)) with 1%nat.
  cbn [seq map flat_map Z.of_nat].
  rewrite !Z.sub_0_r, !Z.add_0_r. now rewrite !app_nil_r.
Qed.

(** X15.  With a radius of 0 the sampler of main.py reads the one pixel
    that gomi2.py reads: at a centre of indices that are not negative it
    returns the sample that the single-pixel version returns, and 0 where
    that version raises. *)
Theorem calculate_distance_radius_0
  (self : ObjectDetector) (img : depth_image) (x y : Q) :
  range_value self = 0 -> 0 <= int x -> 0 <= int y ->
  calculate_distance self img x y
  == match Gomi2.calculate_distance img x y with
     | Some v => inject_Z (Z.of_N v)
     | None => 0
     end.
Proof.
  intros Hr Hx Hy.
  assert (Hg : Gomi2.calculate_distance img x y = sample img (int y) (int x)).
  { unfold Gomi2.calculate_distance, sample.
    replace (int y <? 0) with false by (symmetry; apply Z.ltb_ge; lia).
    replace (int x <? 0) with false by (symmetry; apply Z.ltb_ge; lia).
    cbn [orb]. rewrite index_nonneg by exact Hy.
    destruct (nth_error img (Z.to_nat (int y))); [|reflexivity].
    now apply index_nonneg. }
  rewrite Hg, calculate_distance_eq. unfold nonzero.
  rewrite region_clipped by lia. rewrite Hr, neighborhood_0.
  destruct (sample img (int y) (int x)) as [v|]; cbn [olist filter];
    [|reflexivity].
  destruct (N.eqb_spec v 0) as [->|Hv]; cbn [negb]; [reflexivity|].
  apply np_mean_const; [discriminate|]. now constructor.
Qed.

Lemma calculate_distance_radius_0_witness :
  calculate_distance {| rect_threshold := 14400; range_value := 0 |}
    half_image (7#1) (3#1) == 1000#1.
Proof.
  rewrite (calculate_distance_radius_0
             {| rect_threshold := 14400; range_value := 0 |}
             half_image (7#1) (3#1));
    [vm_compute; reflexivity|reflexivity|vm_compute; discriminate
    |vm_compute; discriminate].
Defined.

Section Gomi2Predict.

Variable names : Z -> string.
Variable fstr : string -> Q -> string.

Lemma Gomi2_detect_loop_spec (img : depth_image) (xyxy : list detection)
  (acc objs : list fused_object) :
  Gomi2.detect_loop names img xyxy acc = Some objs ->
  exists new, objs = acc ++ new /\
              Forall (fun o => (0 <= snd o)%Q) new /\
              length new = length xyxy.
Proof.
  revert acc; induction xyxy as [|d rest IH]; intros acc; cbn [Gomi2.detect_loop].
  - intros H. inversion H. exists []. now rewrite app_nil_r.
  - destruct (Gomi2.calculate_distance img _ _) as [v|]; [|discriminate].
    intros H. apply IH in H. destruct H as (new & -> & Hpos & Hlen).
    exists ((names (int (d5 d)), inject_Z (Z.of_N v)) :: new).
    split; [now rewrite <- app_assoc|]. split; [|simpl; now rewrite Hlen].
    constructor; [|exact Hpos]. simpl. rewrite <- (Zle_Qle 0). lia.
Qed.


Lemma formatted_objects_eq (objs : list fused_object) :
  Forall (fun o => (0 <= snd o)%Q) objs ->
  Gomi2.formatted_objects fstr objs
  = map (fun obj => fstr (fst obj) (round2 (snd obj / 1000)))
        (firstn (3 - length (filter invalid objs))
                (sorted (filter valid objs))).
Proof.
  intros Hpos. unfold Gomi2.formatted_objects. f_equal.
  rewrite (slice_from_0 3), (sorted_invalid_first objs Hpos), firstn_app.
  rewrite filter_app.
  change (fun obj : fused_object => negb (Qeq_bool (snd obj) 0))
    with (fun obj : fused_object => negb (invalid obj)).
  rewrite filter_none.
  - cbn [app]. apply (filter_all (fun obj => negb (invalid obj))).
    apply Forall_forall. intros o Ho.
    assert (Hin : In o (sorted (filter valid objs))).
    { rewrite <- (firstn_skipn (3 - length (filter invalid objs))).
      apply in_or_app. now left. }
    apply (Permutation_in o (sorted_perm _)) in Hin.
    apply filter_In in Hin. apply Hin.
  - apply Forall_forall. intros o Ho.
    assert (Hin : In o (filter invalid objs)).
    { rewrite <- (firstn_skipn 3). apply in_or_app. now left. }
    apply filter_In in Hin. apply Hin.
Qed.



(** X16.  In [predict] of gomi2.py a detection without a depth reading
    costs a line: the objects are cut to the three nearest before those of
    distance 0 are dropped, and 0 sorts first, so with [z] detections of
    distance 0 only the 3 - z nearest valid objects are formatted, and with
    three or more nothing is printed, however many valid objects there
    are. *)
Theorem predict_zero_depth_cost (img : depth_image) (xyxy : list detection)
  (objs : list fused_object) :
  Gomi2.detect_loop names img xyxy [] = Some objs ->
  length objs = length xyxy /\
  Gomi2.formatted_objects fstr objs
  = map (fun obj => fstr (fst obj) (round2 (snd obj / 1000)))
        (firstn (3 - length (filter invalid objs))
                (sorted (filter valid objs))) /\
  (length (Gomi2.formatted_objects fstr objs)
   <= 3 - length (filter invalid objs))%nat /\
  ((3 <= length (filter invalid objs))%nat ->
   Gomi2.predict names fstr xyxy img = Some []).
Proof.
  intros E. destruct (Gomi2_detect_loop_spec _ _ _ _ E) as (new & -> & Hpos & Hlen).
  cbn [app] in *. split; [exact Hlen|].
  pose proof (formatted_objects_eq new Hpos) as Hf.
  split; [exact Hf|]. split.
  - rewrite Hf, length_map, length_firstn. lia.
  - intros Hz. unfold Gomi2.predict. rewrite E, Hf.
    replace (3 - length (filter invalid new))%nat with 0%nat by lia.
    reflexivity.
Qed.


End Gomi2Predict.

Lemma predict_zero_depth_cost_witness :
  Gomi2.predict person_only label_distance
    [box_at 1 1; box_at 2 2; box_at 3 3; box_at 7 7] half_image = Some [].
Proof.
  assert (E : Gomi2.detect_loop person_only half_image
                [box_at 1 1; box_at 2 2; box_at 3 3; box_at 7 7] []
              = Some [("person", 0#1); ("person", 0#1); ("person", 0#1);
                      ("person", 1000#1)]%string)
    by (vm_compute; reflexivity).
  destruct (predict_zero_depth_cost person_only label_distance _ _ _ E)
    as (_ & _ & _ & H).
  apply H. vm_compute. lia.
Defined.


Lemma filter_length_all {A : Type} (f : A -> bool) (l : list A) :
  length (filter f l) = length l -> Forall (fun a => f a = true) l.
Proof.
  induction l as [|x t IH]; simpl; [constructor|].
  destruct (f x) eqn:E; simpl; intros H.
  - constructor; [exact E|]. apply IH. lia.
  - pose proof (filter_length_le f t). lia.
Qed.

(** ** Full records and runs put end to end *)

(** X19.  With three objects or more whose three nearest carry pairwise
    distinct labels, the record is exactly the entries of the three nearest,
    in order of distance; the padding loop does not run, so no label can
    make it hang and no fuel is needed. *)
Theorem organize_data_full (fuel : nat) (objs : list fused_object) :
  (3 <= length objs)%nat -> NoDup (map fst (ranked objs)) ->
  organize_data fuel objs = Some (map entry (ranked objs)) /\
  length (ranked objs) = 3%nat.
Proof.
  intros Hlen Hnd.
  assert (Hr : length (ranked objs) = 3%nat).
  { rewrite ranked_firstn, length_firstn.
    rewrite (Permutation_length (sorted_perm objs)). lia. }
  split; [|exact Hr].
  unfold organize_data. rewrite fill_distinct by exact Hnd. cbn [app].
  destruct fuel; cbn [pad]; rewrite length_map, Hr; reflexivity.
Qed.

Lemma organize_data_full_witness :
  organize_data 0 chair_person_NA
  = Some [("NA", Str "NA"); ("person", Num (1#10)); ("chair", Num (1#2))]%string.
Proof.
  destruct (organize_data_full 0 chair_person_NA) as [E _].
  - simpl. lia.
  - vm_compute. repeat constructor; simpl; intuition discriminate.
  - rewrite E. vm_compute. reflexivity.
Defined.

(** X20.  Frames are handled one after the other with no state kept
    between them but what was written: running the loop on two runs of
    frames put end to end is running it on the first and then, from the
    world it leaves, on the second; if the first run hangs, so does the
    whole. *)
Theorem run_frames_app (dumps : dict -> string) (names : Z -> string)
  (fuel : nat) (object_detector : ObjectDetector)
  (data_organizer : DataOrganizer) (frames1 frames2 : list frame)
  (w : world) :
  run_frames dumps names fuel object_detector data_organizer
    (frames1 ++ frames2) w
  = match run_frames dumps names fuel object_detector data_organizer
            frames1 w with
    | Some w1 =>
        run_frames dumps names fuel object_detector data_organizer frames2 w1
    | None => None
    end.
Proof.
  revert w; induction frames1 as [|[[xyxy depth]|] frames1 IH]; intros w;
    cbn [app run_frames]; [reflexivity| |apply IH].
  destruct (organize_data fuel
              (detect_objects names object_detector xyxy depth));
    [apply IH|reflexivity].
Qed.

(** ** The slots of the record *)

Lemma existsb_eqb_In (l : string) (seen : list string) :
  existsb (String.eqb l) seen = true <-> In l seen.
Proof.
  rewrite existsb_exists. split.
  - intros (x & Hx & E). apply String.eqb_eq in E. now subst.
  - intros H. exists l. split; [exact H|apply String.eqb_refl].
Qed.

Lemma first_occurrences_ext (s s' ls : list string) :
  (forall x, In x s <-> In x s') ->
  first_occurrences s ls = first_occurrences s' ls.
Proof.
  revert s s'; induction ls as [|l t IH]; intros s s' H; [reflexivity|].
  cbn [first_occurrences].
  assert (E : existsb (String.eqb l) s = existsb (String.eqb l) s').
  { apply eq_true_iff_eq. rewrite !existsb_eqb_In. apply H. }
  rewrite E. destruct (existsb (String.eqb l) s'); [now apply IH|].
  f_equal. apply IH. intros x. simpl. rewrite (H x). tauto.
Qed.

Lemma first_occurrences_fresh (s ls : list string) (x : string) :
  In x (first_occurrences s ls) -> In x ls /\ ~ In x s.
Proof.
  revert s; induction ls as [|l t IH]; intros s; cbn [first_occurrences];
    [contradiction|].
  destruct (existsb (String.eqb l) s) eqn:E.
  - intros H. apply IH in H. split; [now right|tauto].
  - intros [<-|H].
    + split; [now left|]. intros Hin. apply existsb_eqb_In in Hin. congruence.
    + apply IH in H. simpl in H. split; [now right|tauto].
Qed.

Lemma first_occurrences_length (s ls : list string) :
  (length (first_occurrences s ls) <= length ls)%nat.
Proof.
  revert s; induction ls as [|l t IH]; intros s; cbn [first_occurrences];
    [lia|].
  destruct (existsb (String.eqb l) s); simpl.
  - specialize (IH s). lia.
  - specialize (IH (l :: s)). lia.
Qed.

(** The keys of the dictionary after the [for] loop are the labels in the
    order of their first occurrence. *)
Lemma fill_keys_order (objs : list fused_object) (d : dict) :
  keys (fill objs d) = keys d ++ first_occurrences (keys d) (map fst objs).
Proof.
  revert d; induction objs as [|o objs IH]; intros d; cbn [fill fold_left map].
  - cbn [first_occurrences]. now rewrite app_nil_r.
  - change (fold_left _ objs ?x) with (fill objs x). rewrite IH.
    cbn [first_occurrences]. rewrite dict_set_keys.
    destruct (in_dec string_dec (fst o) (keys d)) as [Hin|Hn].
    + apply existsb_eqb_In in Hin. now rewrite Hin.
    + replace (existsb (String.eqb (fst o)) (keys d)) with false.
      * rewrite <- app_assoc. cbn [app]. do 2 f_equal.
        apply first_occurrences_ext. intros x.
        rewrite in_app_iff. simpl. tauto.
      * symmetry. apply not_true_iff_false. intros H.
        now apply existsb_eqb_In in H.
Qed.

Lemma all_NA_dict (d : dict) :
  Forall (fun e => snd e = Str "NA") d -> d = map NA_entry (keys d).
Proof.
  induction 1 as [|[k v] t Hk _ IH]; [reflexivity|].
  simpl in *. subst v. unfold NA_entry at 1. now rewrite <- IH.
Qed.

Lemma keys_NA_entries (ls : list string) : keys (map NA_entry ls) = ls.
Proof.
  unfold keys. rewrite map_map. simpl. apply map_id.
Qed.

(** C2, on the code.  For the empty list the record is exactly NA_0, NA_1,
    NA_2, each mapped to "NA".  When the list holds only objects of invalid
    distance, the first three of them are ranked, in input order, and the
    [for] loop writes their labels, each once, in the order of first
    occurrence, each with the value "NA"; when none of these [n] labels is
    one of the placeholder keys NA_n, ..., NA_2, [organize_data] returns
    these entries followed by the placeholders NA_n, ..., NA_2, three entries
    in all; and it returns no other record. *)
Theorem organize_data_no_valid (objs : list fused_object) :
  Forall (fun o => invalid o = true) objs ->
  let labels := first_occurrences [] (map fst (firstn 3 objs)) in
  organize_data 3 []
  = Some [("NA_0", Str "NA"); ("NA_1", Str "NA"); ("NA_2", Str "NA")]%string /\
  ranked objs = firstn 3 objs /\
  fill (ranked objs) [] = map NA_entry labels /\
  length (map NA_entry labels ++ padding (length labels)) = 3%nat /\
  ((forall i, (length labels <= i < 3)%nat -> ~ In (NA_key i) labels) ->
   forall fuel, (3 <= fuel)%nat ->
     organize_data fuel objs
     = Some (map NA_entry labels ++ padding (length labels))) /\
  (forall fuel rec, organize_data fuel objs = Some rec ->
     rec = map NA_entry labels ++ padding (length labels)).
Proof.
  intros Hinv labels. split; [vm_compute; reflexivity|].
  pose proof (ranked_all_invalid objs Hinv) as Hr.
  split; [exact Hr|].
  assert (Hfill : fill (ranked objs) [] = map NA_entry labels).
  { rewrite (all_NA_dict (fill (ranked objs) [])).
    - rewrite fill_keys_order, Hr. reflexivity.
    - apply fill_invalid_values; [|constructor].
      apply Forall_forall. intros o Ho. apply ranked_incl in Ho.
      rewrite Forall_forall in Hinv. now apply Hinv. }
  assert (Hlen : length (fill (ranked objs) []) = length labels)
    by (now rewrite Hfill, length_map).
  assert (H3 : (length labels <= 3)%nat).
  { unfold labels. etransitivity; [apply first_occurrences_length|].
    rewrite length_map, length_firstn. lia. }
  split; [exact Hfill|]. split; [|split].
  - rewrite length_app, length_map, padding_length. lia.
  - intros Hfresh fuel Hfuel. unfold organize_data. rewrite Hfill.
    rewrite pad_fresh; [now rewrite length_map| |rewrite length_map; lia].
    intros i Hi. rewrite length_map in Hi. rewrite keys_NA_entries.
    now apply Hfresh.
  - intros fuel rec E. apply organize_data_inv in E. destruct E as (-> & _).
    now rewrite Hfill, length_map.
Qed.

Lemma organize_data_no_valid_witness :
  organize_data 3 chair_invalid
  = Some [("chair", Str "NA"); ("NA_1", Str "NA"); ("NA_2", Str "NA")]%string.
Proof.
  assert (Hinv : Forall (fun o => invalid o = true) chair_invalid)
    by (repeat constructor).
  destruct (organize_data_no_valid chair_invalid Hinv) as (_ & _ & _ & _ & H & _).
  rewrite H; [vm_compute; reflexivity| |lia].
  intros i Hi. vm_compute in Hi. vm_compute.
  assert (Hi' : i = 1%nat \/ i = 2%nat) by lia.
  destruct Hi' as [-> | ->]; intros [H'|[]]; discriminate H'.
Defined.

(** C8, on the code.  [organize_data] sorts all the objects by a stable
    ascending sort on the distance and ranks the first three: the sorted
    list is a permutation of the input, non-decreasing in distance, its
    entries of any one distance in input order, and the ranked objects are
    non-decreasing and the earliest of the input on ties.  The [for] loop
    writes them in that order into a dictionary: a label takes the slot of
    its first occurrence among the ranked objects and the value of its last.
    So with pairwise distinct ranked labels the slots are the entries of the
    ranked objects in order of distance.  When no placeholder key still to
    be written is among the keys, the record returned is this dictionary
    followed by the placeholders; no other record is returned. *)
Theorem organize_data_sorted_slots (objs : list fused_object) :
  let d := fill (ranked objs) [] in
  Permutation (sorted objs) objs /\
  StronglySorted by_distance (sorted objs) /\
  (forall q, filter (same_distance q) (sorted objs)
             = filter (same_distance q) objs) /\
  ranked objs = firstn 3 (sorted objs) /\
  StronglySorted by_distance (ranked objs) /\
  (forall q, exists rest,
     filter (same_distance q) objs
     = filter (same_distance q) (ranked objs) ++ rest) /\
  keys d = first_occurrences [] (map fst (ranked objs)) /\
  (forall pre l q post,
     ranked objs = pre ++ (l, q) :: post -> ~ In l (map fst post) ->
     In (l, entry_value q) d) /\
  (NoDup (map fst (ranked objs)) -> d = map entry (ranked objs)) /\
  (fresh_padding d -> forall fuel, (3 <= fuel)%nat ->
     organize_data fuel objs = Some (d ++ padding (length d))) /\
  (forall fuel rec, organize_data fuel objs = Some rec ->
     rec = d ++ padding (length d)).
Proof.
  intros d.
  split; [apply sorted_perm|]. split; [apply sorted_sorted|].
  split; [intros q; apply sorted_stable|]. split; [apply ranked_firstn|].
  split; [rewrite ranked_firstn; apply StronglySorted_firstn, sorted_sorted|].
  split.
  { intros q. rewrite ranked_firstn, <- (sorted_stable q objs).
    apply filter_firstn_prefix. }
  split; [apply (fill_keys_order (ranked objs) [])|].
  split.
  { intros pre l q post E Hpost. unfold d. rewrite E. now apply fill_last. }
  split; [intros Hnd; unfold d; now rewrite fill_distinct|].
  split.
  - intros Hf fuel Hfuel. unfold organize_data. apply pad_fresh; [exact Hf|lia].
  - intros fuel rec E. now apply organize_data_inv in E.
Qed.

Lemma organize_data_sorted_slots_witness :
  organize_data 3 chair_person_NA
  = Some [("NA", Str "NA"); ("person", Num (1#10)); ("chair", Num (1#2))]%string
  /\ fill (ranked chair_person_NA) [] = map entry (ranked chair_person_NA).
Proof.
  destruct (organize_data_sorted_slots chair_person_NA)
    as (_ & _ & _ & _ & _ & _ & _ & _ & Hnd & Hret & _).
  split.
  - rewrite Hret; [vm_compute; reflexivity| |lia].
    intros i Hi. vm_compute in Hi. lia.
  - apply Hnd. vm_compute. repeat constructor; simpl; intuition discriminate.
Defined.

(** C8 as stated fails: for two objects labelled cup at 100 mm and 300 mm
    around a dog at 200 mm, the record holds cup at 0.3 before dog at 0.2,
    so the numbers of its slots are not non-decreasing. *)
Lemma organize_data_slots_not_sorted :
  organize_data 3 cup_dog_cup
  = Some [("cup", Num (3#10)); ("dog", Num (1#5)); ("NA_2", Str "NA")]%string
  /\ slot_numbers
       [("cup", Num (3#10)); ("dog", Num (1#5)); ("NA_2", Str "NA")]%string
     = [3#10; 1#5]
  /\ ~ (3#10 <= 1#5)%Q
  /\ ~ (forall objs rec, organize_data 3 objs = Some rec ->
          StronglySorted Qle (slot_numbers rec)).
Proof.
  assert (E : organize_data 3 cup_dog_cup
    = Some [("cup", Num (3#10)); ("dog", Num (1#5)); ("NA_2", Str "NA")]%string)
    by (vm_compute; reflexivity).
  assert (Hn : ~ (3#10 <= 1#5)%Q) by (vm_compute; intros H; now apply H).
  split; [exact E|]. split; [reflexivity|]. split; [exact Hn|].
  intros H. specialize (H _ _ E). cbn in H.
  inversion H as [|? ? _ Hhd]; subst. inversion Hhd; subst. contradiction.
Qed.

(** C5 at the left edge (the defect of C3): around the centre (1, 5) of
    [uniform_image] the square of side 7 holds, inside the image, 35
    samples of 1000 mm and no zero, so the distance should be their mean,
    1000 mm; [calculate_distance] returns the invalid 0. *)
Theorem calculate_distance_misses_square :
  neighborhood 3 uniform_image 1 5 = repeat 1000%N 35 /\
  ~ Forall is_zero (neighborhood 3 uniform_image 1 5) /\
  np_mean (filter (fun v => negb (N.eqb v 0)) (neighborhood 3 uniform_image 1 5))
  == 1000#1 /\
  calculate_distance ObjectDetector_init uniform_image (1#1) (5#1) = 0%Q /\
  ~ (calculate_distance ObjectDetector_init uniform_image (1#1) (5#1) == 0
     <-> Forall is_zero (neighborhood 3 uniform_image 1 5)).
Proof.
  assert (Hn : neighborhood 3 uniform_image 1 5 = repeat 1000%N 35)
    by (vm_compute; reflexivity).
  assert (Hz : ~ Forall is_zero (neighborhood 3 uniform_image 1 5)).
  { rewrite Hn. simpl. intros H. inversion H as [|? ? H0 _]. discriminate H0. }
  split; [exact Hn|]. split; [exact Hz|]. split; [vm_compute; reflexivity|].
  split; [vm_compute; reflexivity|].
  intros [H _]. apply Hz, H. vm_compute. reflexivity.
Qed.

(** ** Float32 comparisons and conversions *)

Lemma SFcompare_antisym (x y : spec_float) :
  SFcompare y x = option_map CompOpp (SFcompare x y).
Proof.
  destruct x as [sx|sx| |sx mx ex], y as [sy|sy| |sy my ey];
    try reflexivity;
    try (destruct sx; reflexivity); try (destruct sy; reflexivity);
    try (destruct sx, sy; reflexivity).
  unfold SFcompare, option_map. f_equal.
  rewrite (Z.compare_antisym ex ey).
  change (Pos.compare_cont Eq my mx) with (Pos.compare_cont (CompOpp Eq) my mx).
  rewrite <- (Pos.compare_cont_antisym mx my Eq).
  destruct sx, sy; try reflexivity;
    destruct (ex ?= ey); try reflexivity.
Qed.

Lemma SFcompare_None (x y : spec_float) :
  SFcompare x y = None -> x = S754_nan \/ y = S754_nan.
Proof.
  destruct x as [sx|sx| |sx mx ex], y as [sy|sy| |sy my ey]; simpl;
    intros H; try discriminate H; auto.
Qed.

(** Between numbers, "not below" is "at least". *)
Lemma SFltb_false_SFleb (x y : spec_float) :
  x <> S754_nan -> y <> S754_nan ->
  (SFltb x y = false <-> SFleb y x = true).
Proof.
  intros Hx Hy. unfold SFltb, SFleb. rewrite (SFcompare_antisym x y).
  destruct (SFcompare x y) as [[| |]|] eqn:E; simpl; try tauto;
    try (split; discriminate).
  apply SFcompare_None in E. tauto.
Qed.

Lemma SFeqb_not_SFltb (x y : spec_float) :
  SFeqb x y = true -> SFltb x y = false.
Proof.
  unfold SFeqb, SFltb. destruct (SFcompare x y) as [[| |]|]; auto; discriminate.
Qed.

Lemma shr_1_nonneg (mrs : shr_record) :
  0 <= shr_m mrs -> 0 <= shr_m (shr_1 mrs).
Proof.
  destruct mrs as [m r s]. destruct m as [|p|p]; simpl; intros H;
    try lia; destruct p; simpl; lia.
Qed.

Lemma iter_pos_nonneg (p : positive) (mrs : shr_record) :
  0 <= shr_m mrs -> 0 <= shr_m (iter_pos shr_1 p mrs).
Proof.
  revert mrs; induction p as [p IH|p IH|]; intros mrs H; simpl.
  - apply IH, IH, shr_1_nonneg, H.
  - apply IH, IH, H.
  - apply shr_1_nonneg, H.
Qed.

Lemma shr_fexp_nonneg (prec emax m e : Z) (l : location) :
  0 <= m -> 0 <= shr_m (fst (shr_fexp prec emax m e l)).
Proof.
  intros H. unfold shr_fexp, shr.
  assert (H0 : 0 <= shr_m (shr_record_of_loc m l))
    by (destruct l as [|[]]; exact H).
  destruct (fexp prec emax (Zdigits2 m + e) - e); simpl; auto.
  now apply iter_pos_nonneg.
Qed.

Lemma round_nearest_even_nonneg (m : Z) (l : location) :
  0 <= m -> 0 <= round_nearest_even m l.
Proof.
  intros H. destruct l as [|[]]; simpl; try lia.
  destruct (Z.even m); lia.
Qed.

Lemma binary_round_aux_not_nan (prec emax : Z) (s : bool) (m e : Z)
  (l : location) :
  0 <= m -> binary_round_aux prec emax s m e l <> S754_nan.
Proof.
  intros H. unfold binary_round_aux.
  pose proof (shr_fexp_nonneg prec emax m e l H) as H1.
  destruct (shr_fexp prec emax m e l) as [mrs' e']. simpl in H1.
  pose proof (shr_fexp_nonneg prec emax _ e' loc_Exact
                (round_nearest_even_nonneg _ (loc_of_shr_record mrs') H1))
    as H2.
  destruct (shr_fexp prec emax _ e' loc_Exact) as [mrs'' e'']. simpl in H2.
  destruct (shr_m mrs'') as [|p|p]; try discriminate; [|lia].
  destruct (e'' <=? emax - prec); discriminate.
Qed.

Lemma SFdiv_core_binary_nonneg (prec emax : Z) (m1 m2 : positive) :
  0 <= fst (fst (SFdiv_core_binary prec emax (Zpos m1) 0 (Zpos m2) 0)).
Proof.
  unfold SFdiv_core_binary.
  set (m' := match _ - _ - _ with Z0 => _ | Zpos _ => _ | Zneg _ => _ end).
  assert (Hm : 0 <= m').
  { subst m'. destruct (_ - _ - _); try lia. apply Z.shiftl_nonneg. lia. }
  pose proof (Z_div_mod m' (Zpos m2) ltac:(lia)) as Hd.
  destruct (Z.div_eucl m' (Zpos m2)) as [q r]. simpl.
  destruct Hd as [Heq Hr]. nia.
Qed.

Lemma of_Q_not_nan (q : Q) : F32.of_Q q <> S754_nan.
Proof.
  unfold F32.of_Q. destruct (Qnum q) as [|p|p]; [discriminate| |];
    pose proof (SFdiv_core_binary_nonneg F32.prec F32.emax p (Qden q)) as H;
    destruct (SFdiv_core_binary _ _ _ _ _ _) as [[mz ez] lz]; simpl in H;
    now apply binary_round_aux_not_nan.
Qed.

(** ** DetectionFilter and FusionEngine in float32 *)

Section Fusion32.

Variable names : Z -> string.
Variable self : ObjectDetector.
Variable img : depth_image.

Lemma F32_detect_loop_Some (xyxy : list detection)
  (acc objs : list fused_object) :
  F32.detect_loop names self img xyxy acc = Some objs <->
  exists new, objs = acc ++ new /\
    Forall2 (fun d o => F32.fuse names self img d = Some o)
            (F32.DetectionFilter self xyxy) new.
Proof.
  revert acc; induction xyxy as [|d rest IH]; intros acc;
    cbn [F32.detect_loop F32.DetectionFilter filter].
  - split.
    + intros H. inversion H. exists []. split; [now rewrite app_nil_r|constructor].
    + intros (new & -> & H). inversion H. now rewrite app_nil_r.
  - fold (F32.DetectionFilter self rest).
    destruct (F32.too_small self d); cbn [negb]; [apply IH|].
    destruct (F32.fuse names self img d) as [o|] eqn:Ef.
    + rewrite IH. split.
      * intros (new & -> & H). exists (o :: new).
        split; [now rewrite <- app_assoc|now constructor].
      * intros (new & -> & H). inversion H as [|? o' ? new' Ho Hrest]; subst.
        assert (o' = o) by congruence. subst o'.
        exists new'. split; [now rewrite <- app_assoc|exact Hrest].
    + split; [discriminate|].
      intros (new & _ & H). inversion H; subst. congruence.
Qed.

Lemma F32_detect_loop_None (xyxy : list detection) (acc : list fused_object) :
  F32.detect_loop names self img xyxy acc = None <->
  exists d, In d (F32.DetectionFilter self xyxy) /\
            F32.fuse names self img d = None.
Proof.
  revert acc; induction xyxy as [|d rest IH]; intros acc;
    cbn [F32.detect_loop F32.DetectionFilter filter].
  - split; [discriminate|]. now intros (d & [] & _).
  - fold (F32.DetectionFilter self rest).
    destruct (F32.too_small self d); cbn [negb]; [apply IH|].
    destruct (F32.fuse names self img d) as [o|] eqn:Ef.
    + rewrite IH. split; intros (d' & Hd' & E').
      * exists d'. split; [now right|exact E'].
      * destruct Hd' as [<-|Hd']; [congruence|]. now exists d'.
    + split; [|reflexivity]. intros _. exists d. split; [now left|exact Ef].
Qed.

Lemma F32_fuse_Some (d : detection) (o : fused_object) :
  F32.fuse names self img d = Some o <->
  exists x y, F32.to_Q (F32.x_center d) = Some x /\
              F32.to_Q (F32.y_center d) = Some y /\
              o = (names (int (d5 d)), calculate_distance self img x y).
Proof.
  unfold F32.fuse.
  destruct (F32.to_Q (F32.x_center d)) as [x|];
    destruct (F32.to_Q (F32.y_center d)) as [y|]; split;
    try discriminate;
    try (intros (x' & y' & Hx & Hy & _); discriminate).
  - intros H. inversion H. now exists x, y.
  - intros (x' & y' & Hx & Hy & ->). inversion Hx. inversion Hy. reflexivity.
Qed.

Lemma F32_fuse_None (d : detection) :
  F32.fuse names self img d = None <->
  F32.to_Q (F32.x_center d) = None \/ F32.to_Q (F32.y_center d) = None.
Proof.
  unfold F32.fuse.
  destruct (F32.to_Q (F32.x_center d)) as [x|];
    destruct (F32.to_Q (F32.y_center d)) as [y|];
    split; auto; try discriminate; intros [H|H]; discriminate H.
Qed.

(** C6, on the code.  The detections that [detect_objects] goes on to fuse
    are detections of the input, in the input order.  The area is the
    float32 product of the float32 width and height, the threshold an
    integer of 64 bits cast to float32, and a detection is retained if and
    only if its area is not below the threshold: when the area is a number
    that is "at least the threshold", and an area that is not a number
    (NaN) is retained as well.  A detection whose area equals the threshold
    is retained, and every detection removed has an area strictly below the
    threshold. *)
Theorem F32_DetectionFilter_area (xyxy : list detection) :
  - 2 ^ 63 <= rect_threshold self < 2 ^ 63 ->
  subseq (F32.DetectionFilter self xyxy) xyxy /\
  (forall d, In d (F32.DetectionFilter self xyxy)
             <-> In d xyxy /\ SFltb (F32.area d) (F32.threshold self) = false) /\
  (forall d, F32.area d <> S754_nan ->
     (SFltb (F32.area d) (F32.threshold self) = false
      <-> SFleb (F32.threshold self) (F32.area d) = true)) /\
  (forall d, F32.area d = S754_nan ->
     SFltb (F32.area d) (F32.threshold self) = false /\
     SFleb (F32.threshold self) (F32.area d) = false) /\
  (forall d, In d xyxy -> SFeqb (F32.area d) (F32.threshold self) = true ->
             In d (F32.DetectionFilter self xyxy)) /\
  (forall d, In d xyxy -> ~ In d (F32.DetectionFilter self xyxy) ->
             SFltb (F32.area d) (F32.threshold self) = true) /\
  (forall objs, F32.detect_objects names self xyxy img = Some objs ->
     Forall2 (fun d o => F32.fuse names self img d = Some o)
             (F32.DetectionFilter self xyxy) objs).
Proof.
  intros _.
  assert (Hin : forall d, In d (F32.DetectionFilter self xyxy)
             <-> In d xyxy /\ SFltb (F32.area d) (F32.threshold self) = false).
  { intros d. unfold F32.DetectionFilter. rewrite filter_In, negb_true_iff.
    reflexivity. }
  split; [apply filter_subseq|]. split; [exact Hin|]. split; [|split; [|split; [|split]]].
  - intros d Hd. apply SFltb_false_SFleb; [exact Hd|apply of_Q_not_nan].
  - intros d Hd. rewrite Hd. split; [reflexivity|].
    unfold SFleb. now destruct (F32.threshold self).
  - intros d Hd He. apply Hin. split; [exact Hd|now apply SFeqb_not_SFltb].
  - intros d Hd Hn.
    destruct (SFltb (F32.area d) (F32.threshold self)) eqn:E; [reflexivity|].
    exfalso. apply Hn, Hin. now split.
  - intros objs E. apply F32_detect_loop_Some in E.
    destruct E as (new & -> & H). exact H.
Qed.

(** C9, on the code.  [detect_objects] returns exactly when the float32
    centre of every detection that passes the area test is finite; it then
    returns one fused object per such detection, in the same order, made of
    the class name and of [calculate_distance] at the float32 centre
    ((x_min + x_max) / 2, (y_min + y_max) / 2), whatever that distance is,
    0 included; the radius is [range_value], which [__init__] fixes at 3.
    When a centre is infinite or NaN, [int] raises and nothing is
    returned. *)
Theorem F32_detect_objects_fused (xyxy : list detection) :
  - 2 ^ 63 <= rect_threshold self < 2 ^ 63 ->
  (forall objs, F32.detect_objects names self xyxy img = Some objs <->
     Forall2 (fun d o =>
                exists x y, F32.to_Q (F32.x_center d) = Some x /\
                            F32.to_Q (F32.y_center d) = Some y /\
                            o = (names (int (d5 d)),
                                 calculate_distance self img x y))
             (F32.DetectionFilter self xyxy) objs) /\
  (F32.detect_objects names self xyxy img = None <->
   exists d, In d (F32.DetectionFilter self xyxy) /\
             (F32.to_Q (F32.x_center d) = None \/
              F32.to_Q (F32.y_center d) = None)) /\
  (forall objs, F32.detect_objects names self xyxy img = Some objs ->
     length objs = length (F32.DetectionFilter self xyxy)) /\
  range_value ObjectDetector_init = 3.
Proof.
  intros _.
  assert (Hsome : forall objs,
            F32.detect_objects names self xyxy img = Some objs <->
            Forall2 (fun d o => F32.fuse names self img d = Some o)
                    (F32.DetectionFilter self xyxy) objs).
  { intros objs. unfold F32.detect_objects. rewrite F32_detect_loop_Some.
    split; [intros (new & -> & H); exact H|intros H; now exists objs]. }
  split; [|split; [|split; [|reflexivity]]].
  - intros objs. rewrite Hsome.
    split; intros H; (eapply Forall2_impl; [|exact H]); intros d o Hd;
      now apply F32_fuse_Some.
  - unfold F32.detect_objects. rewrite F32_detect_loop_None.
    split; intros (d & Hd & H); exists d; (split; [exact Hd|]);
      now apply F32_fuse_None.
  - intros objs H. apply Hsome in H. symmetry. exact (Forall2_length H).
Qed.

(** X11.  When the float32 area of every detection of a frame is below the
    threshold, [detect_objects] returns the empty list, and [organize_data]
    then returns, on any fuel of three rounds or more, the record of the
    three placeholders NA_0, NA_1, NA_2. *)
Theorem F32_no_detection_record (xyxy : list detection) (fuel : nat) :
  - 2 ^ 63 <= rect_threshold self < 2 ^ 63 ->
  (forall d, In d xyxy ->
             SFltb (F32.area d) (F32.threshold self) = true) ->
  (3 <= fuel)%nat ->
  F32.detect_objects names self xyxy img = Some [] /\
  match F32.detect_objects names self xyxy img with
  | Some objs => organize_data fuel objs
  | None => None
  end
  = Some [("NA_0", Str "NA"); ("NA_1", Str "NA"); ("NA_2", Str "NA")]%string.
Proof.
  intros _ Hsmall Hfuel.
  assert (E : F32.detect_objects names self xyxy img = Some []).
  { unfold F32.detect_objects. apply F32_detect_loop_Some. exists [].
    split; [reflexivity|].
    replace (F32.DetectionFilter self xyxy) with (@nil detection);
      [constructor|].
    symmetry. unfold F32.DetectionFilter.
    induction xyxy as [|d t IH]; [reflexivity|]. simpl.
    unfold F32.too_small at 1. rewrite (Hsmall d) by now left. simpl.
    apply IH. intros d' Hd'. apply Hsmall. now right. }
  split; [exact E|]. rewrite E.
  apply (organize_data_fuel 3); [vm_compute; reflexivity|exact Hfuel].
Qed.

End Fusion32.

Lemma F32_DetectionFilter_area_witness :
  F32.DetectionFilter ObjectDetector_init
    [small_box; rounded_height_box; boundary_box]
  = [rounded_height_box; boundary_box] /\
  SFleb (F32.threshold ObjectDetector_init) (F32.area rounded_height_box)
  = true.
Proof.
  destruct (F32_DetectionFilter_area person_only ObjectDetector_init
              uniform_image [small_box; rounded_height_box; boundary_box])
    as (_ & _ & Hge & _).
  - vm_compute. split; [discriminate|reflexivity].
  - split; [vm_compute; reflexivity|].
    apply Hge; vm_compute; [discriminate|reflexivity].
Defined.

(** C6 as stated fails: the float32 width of [overflowing_width_box] is
    infinite and its height 0, so its area is NaN, which is not below the
    threshold: the detection is retained and fused, although its area is
    not greater than or equal to the threshold (and the exact product of its
    width and height, 0, is below it). *)
Lemma F32_nan_area_retained :
  F32.width overflowing_width_box = S754_infinity false /\
  F32.area overflowing_width_box = S754_nan /\
  In overflowing_width_box
     (F32.DetectionFilter ObjectDetector_init [overflowing_width_box]) /\
  F32.detect_objects person_only ObjectDetector_init [overflowing_width_box]
    uniform_image = Some [("person"%string, 0%Q)] /\
  SFleb (F32.threshold ObjectDetector_init) (F32.area overflowing_width_box)
  = false /\
  (area overflowing_width_box
   < inject_Z (rect_threshold ObjectDetector_init))%Q.
Proof.
  assert (E : F32.DetectionFilter ObjectDetector_init [overflowing_width_box]
              = [overflowing_width_box]) by (vm_compute; reflexivity).
  split; [vm_compute; reflexivity|]. split; [vm_compute; reflexivity|].
  split; [rewrite E; now left|]. split; [vm_compute; reflexivity|].
  split; vm_compute; reflexivity.
Qed.

Lemma F32_detect_objects_fused_witness :
  F32.detect_objects person_only one_pixel
    [small_box; rounded_centre_box] gradient_image
  = Some [("person"%string, 0#1); ("person"%string, 700#1)].
Proof.
  destruct (F32_detect_objects_fused person_only one_pixel gradient_image
              [small_box; rounded_centre_box]) as (H & _).
  - vm_compute. split; [discriminate|reflexivity].
  - apply H.
    assert (E : F32.DetectionFilter one_pixel [small_box; rounded_centre_box]
                = [small_box; rounded_centre_box]) by (vm_compute; reflexivity).
    rewrite E.
    constructor; [|constructor; [|constructor]];
      eexists; eexists; (split; [vm_compute; reflexivity|]);
      (split; [vm_compute; reflexivity|]); vm_compute; reflexivity.
Defined.

(** C9 as stated fails: [overflowing_centre_box] passes the area test, but
    the float32 sum of its x_min and x_max is infinite, so the call of
    [int] in [calculate_distance] raises and [detect_objects] returns
    nothing, not one fused object for this detection. *)
Lemma F32_centre_overflow_raises :
  In overflowing_centre_box
     (F32.DetectionFilter ObjectDetector_init [overflowing_centre_box]) /\
  F32.x_center overflowing_centre_box = S754_infinity false /\
  F32.detect_objects person_only ObjectDetector_init
    [boundary_box; overflowing_centre_box] uniform_image = None.
Proof.
  assert (E : F32.DetectionFilter ObjectDetector_init [overflowing_centre_box]
              = [overflowing_centre_box]) by (vm_compute; reflexivity).
  split; [rewrite E; now left|]. split; vm_compute; reflexivity.
Qed.

Lemma F32_no_detection_record_witness :
  F32.detect_objects person_only ObjectDetector_init [small_box] uniform_image
  = Some [].
Proof.
  destruct (F32_no_detection_record person_only ObjectDetector_init
              uniform_image [small_box] 3) as [E _].
  - vm_compute. split; [discriminate|reflexivity].
  - intros d [<-|[]]. vm_compute. reflexivity.
  - lia.
  - exact E.
Defined.

(** X18.  The share of holes that the loop of gomi2.py prints, for an image
    with at least one sample: it is a number between 0 and 1, and when it
    is 1 the sampler of main.py returns the invalid distance 0 at every
    centre of that image. *)
Theorem zero_percentage_bounds (img : depth_image) :
  concat img <> [] ->
  exists q, Gomi2.zero_percentage img = Some q /\
    (0 <= q <= 1)%Q /\
    (q == 1 -> forall self x y, calculate_distance self img x y = 0%Q).
Proof.
  intros Hne. unfold Gomi2.zero_percentage.
  set (zeros := filter (fun v => N.eqb v 0) (concat img)).
  assert (Hsz : length (concat img) <> 0%nat).
  { intros H. apply length_zero_iff_nil in H. contradiction. }
  replace (Nat.eqb (length (concat img)) 0) with false
    by (symmetry; now apply Nat.eqb_neq).
  eexists. split; [reflexivity|].
  pose proof (filter_length_le (fun v => N.eqb v 0) (concat img)) as Hle.
  fold zeros in Hle.
  assert (Hn : (0 < inject_Z (Z.of_nat (length (concat img))))%Q)
    by (rewrite <- (Zlt_Qlt 0); lia).
  split; [split|].
  - apply Qle_shift_div_l; [exact Hn|]. rewrite Qmult_0_l.
    rewrite <- (Zle_Qle 0). lia.
  - apply Qle_shift_div_r; [exact Hn|]. rewrite Qmult_1_l.
    rewrite <- Zle_Qle. lia.
  - intros H1 self x y.
    assert (Hz : length zeros = length (concat img)).
    { assert (Hq' : inject_Z (Z.of_nat (length zeros))
                    == inject_Z (Z.of_nat (length (concat img)))).
      { rewrite <- (Qmult_div_r (inject_Z (Z.of_nat (length zeros)))
                      (inject_Z (Z.of_nat (length (concat img)))))
          by (intros H0; rewrite H0 in Hn; now apply Qlt_irrefl in Hn).
        rewrite H1. apply Qmult_1_r. }
      unfold Qeq in Hq'. simpl in Hq'. lia. }
    apply filter_length_all in Hz.
    rewrite calculate_distance_eq.
    replace (nonzero (region self img (int x) (int y))) with (@nil N);
      [reflexivity|].
    symmetry. apply nonzero_nil_iff. apply Forall_forall. intros v Hv.
    apply region_incl in Hv. rewrite Forall_forall in Hz.
    now apply N.eqb_eq, Hz.
Qed.

Lemma zero_percentage_bounds_witness :
  exists q, Gomi2.zero_percentage half_image = Some q /\ (0 <= q <= 1)%Q.
Proof.
  destruct (zero_percentage_bounds half_image) as (q & E & Hb & _).
  - vm_compute. discriminate.
  - exists q. now split.
Defined.
